(** * refresh_metric_views: a shallow embedding of scripts/refresh_metric_views.py

    The script looks up the pipeline behind a metric view with
    [DESCRIBE EXTENDED], extracts the pipeline identifier with a regular
    expression, and starts a pipeline update for every identifier.

    The embedding keeps the shape of the Python code: every function of the
    script is a computation in a small monad [Py] that threads the trace of
    observable events (lines printed, remote calls issued) and ends in a
    returned value, a raised [Exception], or [SystemExit]. *)

From Stdlib Require Import ZArith Ascii.
From stdpp Require Import base option list strings gmap.

(** ** Python strings and the two regular expressions

    A Python [str] is modelled by [string], one element per byte of its UTF-8
    encoding.  Both patterns of the script are made of ASCII characters only,
    and no byte of a multi-byte UTF-8 sequence is an ASCII byte, so searching
    the bytes finds the same matches, with the same groups, as searching the
    code points. *)

Module Re.

(** The character class [[a-f0-9]]. *)
Definition hex (c : ascii) : bool :=
  match c with
  | "a" | "b" | "c" | "d" | "e" | "f"
  | "0" | "1" | "2" | "3" | "4" | "5" | "6" | "7" | "8" | "9" => true
  | _ => false
  end%char.

(** The character class [[a-f0-9-]]. *)
Definition hex_hyphen (c : ascii) : bool :=
  match c with
  | "-" => true
  | _ => hex c
  end%char.

(** [strip_prefix lit s] is the rest of [s] after the literal [lit], when
    [s] starts with [lit]. *)
Fixpoint strip_prefix (lit s : string) : option string :=
  match lit, s with
  | EmptyString, _ => Some s
  | String a lit', String b s' =>
      if Ascii.eqb a b then strip_prefix lit' s' else None
  | String _ _, EmptyString => None
  end.

(** The longest prefix of [s] made of characters of the class: what a
    greedy [[...]+] or [[...]*] consumes. *)
Fixpoint span (cls : ascii -> bool) (s : string) : string :=
  match s with
  | String c s' => if cls c then String c (span cls s') else EmptyString
  | EmptyString => EmptyString
  end.

Definition nonempty (s : string) : bool :=
  match s with EmptyString => false | String _ _ => true end.

(** An attempt to match [lit([cls]+)] at the very start of [s]; the literal
    must be there and the greedy group must take at least one character.
    Nothing follows the group in the pattern, so the greedy choice is never
    given back.  The result is group 1. *)
Definition match_here (lit : string) (cls : ascii -> bool) (s : string)
  : option string :=
  match strip_prefix lit s with
  | Some rest =>
      let g := span cls rest in
      if nonempty g then Some g else None
  | None => None
  end.

(** [re.search(lit([cls]+), s).group(1)]: the start positions are tried
    from left to right and the first one that matches wins; [None] when no
    position matches. *)
Fixpoint search (lit : string) (cls : ascii -> bool) (s : string)
  : option string :=
  match match_here lit cls s with
  | Some g => Some g
  | None =>
      match s with
      | String _ s' => search lit cls s'
      | EmptyString => None
      end
  end.

(** [lit in s], the substring test of Python. *)
Fixpoint contains (lit s : string) : bool :=
  match strip_prefix lit s with
  | Some _ => true
  | None =>
      match s with
      | String _ s' => contains lit s'
      | EmptyString => false
      end
  end.

(** Every character of [s] is in the class. *)
Fixpoint all (cls : ascii -> bool) (s : string) : bool :=
  match s with
  | String c s' => cls c && all cls s'
  | EmptyString => true
  end.

(** *** What a match is, independently of the search procedure *)

(** [lit] followed by the non-empty token [tok] of class characters occurs
    in [s] with [pre] before it and [post] after it. *)
Definition occurs (lit : string) (cls : ascii -> bool)
    (s pre tok post : string) : Prop :=
  s = pre +:+ lit +:+ tok +:+ post ∧ tok ≠ EmptyString ∧ all cls tok = true.

(** The token cannot be extended to the right. *)
Definition maximal (cls : ascii -> bool) (post : string) : Prop :=
  match post with
  | EmptyString => True
  | String c _ => cls c = false
  end.

(** No occurrence starts before position [n]. *)
Definition none_before (lit : string) (cls : ascii -> bool)
    (s : string) (n : nat) : Prop :=
  ∀ pre tok post, occurs lit cls s pre tok post → n ≤ String.length pre.

(** [tok] is group 1 of the leftmost match of [lit([cls]+)] in [s], the
    group being as long as possible. *)
Definition first_match (lit : string) (cls : ascii -> bool)
    (s tok : string) : Prop :=
  ∃ pre post,
    occurs lit cls s pre tok post ∧ maximal cls post ∧
    none_before lit cls s (String.length pre).

(** The pattern matches nowhere in [s]. *)
Definition no_match (lit : string) (cls : ascii -> bool) (s : string) : Prop :=
  ∀ pre tok post, ¬ occurs lit cls s pre tok post.

End Re.

(** ** Outcomes, events and the monad of the script *)

(** An instance of a subclass of Python's [Exception]: its class name and
    [str(e)], the text an f-string prints for it. *)
Record Exception := { exc_class : string; exc_str : string }.

Definition ValueError (msg : string) : Exception :=
  {| exc_class := "ValueError"; exc_str := msg |}.

Definition IndexError (msg : string) : Exception :=
  {| exc_class := "IndexError"; exc_str := msg |}.

(** What the process does that can be observed from outside: a call of
    [print] (with the text it is given; [print] adds the end of line) and the
    three remote calls made through the SDK client. *)
Inductive Event :=
  | Print (text : string)
  | WarehousesList
  | ExecuteStatement (warehouse_id statement wait_timeout : string)
  | StartUpdate (pipeline_id : string).

(** How a Python call ends.  [SystemExit] is what [sys.exit] raises; it is a
    [BaseException] and not an [Exception], so [except Exception] lets it
    through. *)
Inductive Outcome (A : Type) :=
  | Returned (a : A)
  | Raised (e : Exception)
  | SystemExit (code : Z).
Arguments Returned {A} a.
Arguments Raised {A} e.
Arguments SystemExit {A} code.

(** A computation reads the events so far and gives its outcome and the
    events extended by its own, in the order they happened. *)
Definition Py (A : Type) : Type := list Event → Outcome A * list Event.

Definition ret {A} (a : A) : Py A := λ t, (Returned a, t).

Definition bind {A B} (m : Py A) (k : A → Py B) : Py B :=
  λ t, match m t with
       | (Returned a, t') => k a t'
       | (Raised e, t') => (Raised e, t')
       | (SystemExit c, t') => (SystemExit c, t')
       end.

Definition raise {A} (e : Exception) : Py A := λ t, (Raised e, t).

(** [sys.exit(code)] *)
Definition sys_exit {A} (code : Z) : Py A := λ t, (SystemExit code, t).

(** [try: body / except Exception as e: handler e] *)
Definition try_except {A} (body : Py A) (handler : Exception → Py A) : Py A :=
  λ t, match body t with
       | (Raised e, t') => handler e t'
       | r => r
       end.

Definition print (text : string) : Py unit := λ t, (Returned tt, t ++ [Print text]).

Notation "'let!' x ':=' m 'in' k" := (bind m (λ x, k))
  (at level 10, x name, m at level 100, k at level 200).
Notation "m ';;;' k" := (bind m (λ _, k))
  (at level 100, k at level 200, right associativity).

(** Truthiness of a [str]. *)
Definition truthy_str (s : string) : bool := Re.nonempty s.

(** [x] in the branch taken by [if x:] for [x : str | None]: the string,
    when there is one and it is not empty. *)
Definition if_truthy (o : option string) : option string :=
  match o with
  | Some s => if truthy_str s then Some s else None
  | None => None
  end.

(** The exit status of the process when [main()] ends with the given outcome:
    0 after a normal return, the code of [sys.exit], and 1 after an uncaught
    exception (the interpreter prints the traceback to standard error). *)
Definition exit_status {A} (o : Outcome A) : Z :=
  match o with
  | Returned _ => 0
  | Raised _ => 1
  | SystemExit c => c
  end.

(** ** The world around the script *)

(** Modelled from the spec: the SDK's warehouse records are not part of the
    repository; the spec gives them as [{id, state}].  [wh_state] is [None]
    when [wh.state] is [None], and otherwise holds [wh.state.value]. *)
Record EndpointInfo := { wh_id : string; wh_state : option string }.

Section World.

(** A row of [data_array].  The script only ever applies [str] to it. *)
Context {Row : Type}.

(** Modelled from the spec: the SDK's statement response, [result.result]
    and [result.result.data_array], each of which may be [None]. *)
Record ResultData := { data_array : option (list Row) }.
Record StatementResponse := { result : option ResultData }.

(** The remote service behind [WorkspaceClient].  Each call answers with a
    value or raises an [Exception]; the answer may depend on everything
    that happened before the call. *)
Record WorkspaceClient := {
  warehouses_list : list Event → Exception + list EndpointInfo;
  execute_statement :
    list Event → string → string → string → Exception + StatementResponse;
  start_update : list Event → string → Exception + unit
}.

(** What [from databricks.sdk import WorkspaceClient; WorkspaceClient()]
    does in this process. *)
Inductive Sdk :=
  | ImportFails
  | InitRaises (e : Exception)
  | Ready (client : WorkspaceClient).

Record World := {
  (** Python's built-in [str] on a row *)
  str : Row → string;
  (** [os.environ] *)
  environ : gmap string string;
  sdk : Sdk
}.

Definition with_environ (env : gmap string string) (w : World) : World :=
  {| str := str w; environ := env; sdk := sdk w |}.

(** *** Remote calls as computations *)

Definition answer {A} (ev : Event) (r : Exception + A) : Py A :=
  λ t, match r with
       | inl e => (Raised e, t ++ [ev])
       | inr a => (Returned a, t ++ [ev])
       end.

(** [list(client.warehouses.list())] *)
Definition call_warehouses_list (client : WorkspaceClient)
  : Py (list EndpointInfo) :=
  λ t, answer WarehousesList (warehouses_list client t) t.

(** [client.statement_execution.execute_statement(warehouse_id=..,
    statement=.., wait_timeout=..)] *)
Definition call_execute_statement (client : WorkspaceClient)
    (warehouse_id statement wait_timeout : string) : Py StatementResponse :=
  λ t, answer (ExecuteStatement warehouse_id statement wait_timeout)
         (execute_statement client t warehouse_id statement wait_timeout) t.

(** [client.pipelines.start_update(pipeline_id)] *)
Definition call_start_update (client : WorkspaceClient)
    (pipeline_id : string) : Py unit :=
  λ t, answer (StartUpdate pipeline_id) (start_update client t pipeline_id) t.

End World.

Arguments ResultData : clear implicits.
Arguments StatementResponse : clear implicits.
Arguments WorkspaceClient : clear implicits.
Arguments Sdk : clear implicits.
Arguments World : clear implicits.

(** ** The script *)

(** The docstring of the module, [__doc__]. *)
Definition __doc__ : string :=
"
Manually refresh metric view materializations.

This script triggers a refresh of the underlying Lakeflow Spark Declarative Pipelines
for metric views with materialization.

Usage:
    # Discover pipeline IDs for metric views
    uv run --env-file .env python scripts/refresh_metric_views.py --discover <catalog>.<schema>.mv_order_metrics
    
    # Refresh specific pipelines by ID
    uv run --env-file .env python scripts/refresh_metric_views.py <pipeline_id_1> <pipeline_id_2>
    
    # Discover and refresh in one go
    uv run --env-file .env python scripts/refresh_metric_views.py --refresh <catalog>.<schema>.mv_order_metrics

Environment:
    Set DATABRICKS_HOST and DATABRICKS_TOKEN in .env file, or use Databricks CLI profile.

See: https://docs.databricks.com/aws/en/metric-views/materialization#manual-refresh
".

(** The character written [\n] in a Python string literal. *)
Definition newline : string := String "010"%char EmptyString.

Definition resolution_error_message : string :=
  "Could not determine warehouse ID. " +:+
  "Set DATABRICKS_WAREHOUSE_ID or DATABRICKS_HTTP_PATH environment variable.".

(** Whether [except ImportError] catches [e].  Exceptions are told apart by
    the name of their class: [ImportError] itself and its subclasses,
    [ModuleNotFoundError] and [zipimport.ZipImportError]. *)
Definition is_import_error (e : Exception) : bool :=
  String.eqb (exc_class e) "ImportError" ||
  String.eqb (exc_class e) "ModuleNotFoundError" ||
  String.eqb (exc_class e) "ZipImportError".

(** [l[i]] for a non-negative index *)
Definition getitem (l : list string) (i : nat) : Py string :=
  match l !! i with
  | Some x => ret x
  | None => raise (IndexError "list index out of range")
  end.

Section Script.

Context {Row : Type}.
Implicit Types (w : World Row) (client : WorkspaceClient Row).

Definition get_client w : Py (WorkspaceClient Row) :=
  match sdk w with
  | Ready client => ret client
  | InitRaises e =>
      if is_import_error e then
        print "Error: databricks-sdk not installed." ;;;
        print "Install with: pip install databricks-sdk" ;;;
        sys_exit 1
      else raise e
  | ImportFails =>
      print "Error: databricks-sdk not installed." ;;;
      print "Install with: pip install databricks-sdk" ;;;
      sys_exit 1
  end.

(** The body of the [try] of [_get_warehouse_id]: [Some id] when one of its
    [return]s is reached, [None] when control falls out of the block. *)
Definition list_and_pick client : Py (option string) :=
  let! warehouses := call_warehouses_list client in
  match
    List.find
      (λ wh, match wh_state wh with
             | Some value => String.eqb value "RUNNING"
             | None => false
             end)
      warehouses
  with
  | Some wh => ret (Some (wh_id wh))
  | None =>
      match warehouses with
      | wh0 :: _ => ret (Some (wh_id wh0))
      | [] => ret None
      end
  end.

Definition _get_warehouse_id w client : Py string :=
  match if_truthy (environ w !! "DATABRICKS_WAREHOUSE_ID") with
  | Some warehouse_id => ret warehouse_id
  | None =>
      let http_path := default "" (environ w !! "DATABRICKS_HTTP_PATH") in
      match Re.search "/warehouses/" Re.hex http_path with
      | Some group1 => ret group1
      | None =>
          let! picked := try_except (list_and_pick client) (λ _, ret None) in
          match picked with
          | Some id => ret id
          | None => raise (ValueError resolution_error_message)
          end
      end
  end.

(** The [for row in result.result.data_array] loop of [discover_pipeline]:
    [Some id] when its [return pipeline_id] is reached, [None] when the loop
    runs to its end. *)
Fixpoint scan_rows w (rows : list Row) : Py (option string) :=
  match rows with
  | row :: rows' =>
      let row_str := str w row in
      if Re.contains "pipelines/" row_str then
        match Re.search "pipelines/" Re.hex_hyphen row_str with
        | Some pipeline_id =>
            print ("  Found pipeline ID: " +:+ pipeline_id) ;;;
            ret (Some pipeline_id)
        | None => scan_rows w rows'
        end
      else scan_rows w rows'
  | [] => ret None
  end.

(** The rows the loop runs over: those of [data_array] when
    [result.result and result.result.data_array] is truthy, none otherwise. *)
Definition rows_of (response : StatementResponse Row) : list Row :=
  match result response with
  | Some r => match data_array r with Some rows => rows | None => [] end
  | None => []
  end.

Definition discover_pipeline w (metric_view_name : string) : Py (option string) :=
  let! client := get_client w in
  print ("Looking up pipeline for: " +:+ metric_view_name) ;;;
  try_except
    (let! warehouse_id := _get_warehouse_id w client in
     let! response :=
       call_execute_statement client warehouse_id
         ("DESCRIBE EXTENDED " +:+ metric_view_name) "30s" in
     let! found := scan_rows w (rows_of response) in
     match found with
     | Some pipeline_id => ret (Some pipeline_id)
     | None =>
         print "  No pipeline found. Make sure the metric view has materialization enabled." ;;;
         ret None
     end)
    (λ e,
       print ("  Error: " +:+ exc_str e) ;;;
       print "" ;;;
       print "  Alternatively, run this SQL in Databricks:" ;;;
       print ("    DESCRIBE EXTENDED " +:+ metric_view_name +:+ ";") ;;;
       print "  Look for 'Refresh information' section -> Pipeline URL contains the pipeline_id" ;;;
       ret None).

(** The [for pipeline_id in pipeline_ids] loop of [refresh_pipelines]. *)
Fixpoint refresh_loop client (pipeline_ids : list string) : Py unit :=
  match pipeline_ids with
  | pipeline_id :: rest =>
      print ("Starting refresh for pipeline: " +:+ pipeline_id) ;;;
      try_except
        (call_start_update client pipeline_id ;;;
         print "  ✓ Refresh started successfully")
        (λ e, print ("  ✗ Error: " +:+ exc_str e)) ;;;
      refresh_loop client rest
  | [] => ret tt
  end.

Definition refresh_pipelines w (pipeline_ids : list string) : Py unit :=
  let! client := get_client w in
  refresh_loop client pipeline_ids.

(** [for view_name in sys.argv[2:]: discover_pipeline(view_name)] *)
Fixpoint discover_each w (views : list string) : Py unit :=
  match views with
  | view_name :: rest => discover_pipeline w view_name ;;; discover_each w rest
  | [] => ret tt
  end.

(** The loop of the [--refresh] mode, with the list [pipeline_ids] it
    appends to. *)
Fixpoint collect_each w (views : list string) (pipeline_ids : list string)
  : Py (list string) :=
  match views with
  | view_name :: rest =>
      let! pid := discover_pipeline w view_name in
      collect_each w rest
        (match if_truthy pid with
         | Some pid' => pipeline_ids ++ [pid']
         | None => pipeline_ids
         end)
  | [] => ret pipeline_ids
  end.

Definition usage : Py unit :=
  print __doc__ ;;;
  print (newline +:+ "Examples:") ;;;
  print "  # Discover pipeline ID" ;;;
  print "  uv run --env-file .env python scripts/refresh_metric_views.py --discover <catalog>.<schema>.mv_order_metrics" ;;;
  print "" ;;;
  print "  # Refresh by pipeline ID" ;;;
  print "  uv run --env-file .env python scripts/refresh_metric_views.py 01484540-0a06-414a-b10f-e1b0e8097f15" ;;;
  print "" ;;;
  print "  # Discover and refresh in one go" ;;;
  print "  uv run --env-file .env python scripts/refresh_metric_views.py --refresh <catalog>.<schema>.mv_order_metrics".

(** [main()], with [argv] for [sys.argv]. *)
Definition main w (argv : list string) : Py unit :=
  if (length argv <? 2)%nat then
    usage ;;; sys_exit 1
  else
    let! mode := getitem argv 1 in
    if String.eqb mode "--discover" then
      if (length argv <? 3)%nat then
        print "Error: --discover requires a metric view name" ;;;
        sys_exit 1
      else discover_each w (drop 2 argv)
    else if String.eqb mode "--refresh" then
      if (length argv <? 3)%nat then
        print "Error: --refresh requires metric view name(s)" ;;;
        sys_exit 1
      else
        let! pipeline_ids := collect_each w (drop 2 argv) [] in
        match pipeline_ids with
        | _ :: _ =>
            print "" ;;;
            refresh_pipelines w pipeline_ids
        | [] =>
            print "No pipelines found to refresh." ;;;
            sys_exit 1
        end
    else
      let pipeline_ids := drop 1 argv in
      refresh_pipelines w pipeline_ids.

End Script.

(** ** The vocabulary of the specification *)

Section Vocabulary.

Context {Row : Type}.
Implicit Types (w : World Row) (client : WorkspaceClient Row).

(** The row, stringified, holds [pipelines/] followed by a non-empty token of
    lower-case hexadecimal digits and hyphens, and [pipeline_id] is that token
    at the first place where this happens. *)
Definition yields w (row : Row) (pipeline_id : string) : Prop :=
  Re.first_match "pipelines/" Re.hex_hyphen (str w row) pipeline_id.

Definition yields_nothing w (row : Row) : Prop :=
  Re.no_match "pipelines/" Re.hex_hyphen (str w row).

(** [pipeline_id] is what the first row that yields anything yields. *)
Definition first_yield w (rows : list Row) (pipeline_id : string) : Prop :=
  ∃ before row after,
    rows = before ++ row :: after ∧
    Forall (yields_nothing w) before ∧ yields w row pipeline_id.

(** The response carries no rows: there is no [result], or no [data_array],
    or the array is empty. *)
Definition carries_no_rows (response : StatementResponse Row) : Prop :=
  result response = None ∨
  ∃ r, result response = Some r ∧
       (data_array r = None ∨ data_array r = Some []).

(** The response carries the rows [rows]: it has a [result], whose
    [data_array] is [rows]. *)
Definition carries_rows (response : StatementResponse Row) (rows : list Row)
  : Prop :=
  ∃ r, result response = Some r ∧ data_array r = Some rows.

(** [lit] is a substring of [s]. *)
Definition substring (lit s : string) : Prop :=
  ∃ pre post, s = pre +:+ lit +:+ post.

(** No occurrence of [lit] in [s] is immediately followed by a character of
    the class. *)
Definition never_followed (lit : string) (cls : ascii → bool) (s : string)
  : Prop :=
  ∀ pre post, s = pre +:+ lit +:+ post → Re.maximal cls post.

Definition running (wh : EndpointInfo) : Prop := wh_state wh = Some "RUNNING".

(** [wh] is the first warehouse of the list whose state is RUNNING. *)
Definition first_running (warehouses : list EndpointInfo) (wh : EndpointInfo)
  : Prop :=
  ∃ before after,
    warehouses = before ++ wh :: after ∧
    Forall (λ x, ¬ running x) before ∧ running wh.

Definition unset_or_empty (env : gmap string string) (name : string) : Prop :=
  env !! name = None ∨ env !! name = Some "".

(** Neither environment variable gives a warehouse identifier. *)
Definition no_env_override w : Prop :=
  unset_or_empty (environ w) "DATABRICKS_WAREHOUSE_ID" ∧
  ∀ http_path, environ w !! "DATABRICKS_HTTP_PATH" = Some http_path →
    Re.no_match "/warehouses/" Re.hex http_path.

(** The warehouse list call raises or returns the empty list. *)
Definition listing_fails client (t : list Event) : Prop :=
  (∃ e, warehouses_list client t = inl e) ∨ warehouses_list client t = inr [].

(** The first line [discover_pipeline] prints for a view. *)
Definition lookup_line (metric_view_name : string) : Event :=
  Print ("Looking up pipeline for: " +:+ metric_view_name).

(** What the [except] block of [discover_pipeline] prints for [e]. *)
Definition error_report (e : Exception) (metric_view_name : string)
  : list Event :=
  [ Print ("  Error: " +:+ exc_str e);
    Print "";
    Print "  Alternatively, run this SQL in Databricks:";
    Print ("    DESCRIBE EXTENDED " +:+ metric_view_name +:+ ";");
    Print "  Look for 'Refresh information' section -> Pipeline URL contains the pipeline_id" ].

(** The pipeline identifiers of the start-update calls of a trace, in the
    order of the calls. *)
Definition start_updates (t : list Event) : list string :=
  omap (λ ev, match ev with StartUpdate p => Some p | _ => None end) t.

(** The line [refresh_pipelines] prints after a start-update call that
    answered [r]. *)
Definition report_line (r : Exception + unit) : Event :=
  match r with
  | inr _ => Print "  ✓ Refresh started successfully"
  | inl e => Print ("  ✗ Error: " +:+ exc_str e)
  end.

(** The line [refresh_pipelines] prints before a start-update call. *)
Definition start_line (pipeline_id : string) : Event :=
  Print ("Starting refresh for pipeline: " +:+ pipeline_id).

(** What [refresh_pipelines] is expected to add to the trace [t], one chunk
    for each identifier: the announcement, the call, and the report of how
    the call ended, given everything that happened before it. *)
Fixpoint refresh_chunks client (t : list Event) (pipeline_ids : list string)
  : list (list Event) :=
  match pipeline_ids with
  | pipeline_id :: rest =>
      let chunk :=
        [ start_line pipeline_id;
          StartUpdate pipeline_id;
          report_line
            (start_update client (t ++ [start_line pipeline_id]) pipeline_id) ] in
      chunk :: refresh_chunks client (t ++ chunk) rest
  | [] => []
  end.

(** Discovery for each view in turn, keeping every result. *)
Fixpoint discover_all w (views : list string) : Py (list (option string)) :=
  match views with
  | view_name :: rest =>
      let! pid := discover_pipeline w view_name in
      let! pids := discover_all w rest in
      ret (pid :: pids)
  | [] => ret []
  end.

(** The results that are not [None], in order. *)
Definition resolved (results : list (option string)) : list string :=
  omap id results.

(** The value the loop of [discover_pipeline] ends with, without its
    printing. *)
Fixpoint scan_result w (rows : list Row) : option string :=
  match rows with
  | row :: rows' =>
      match Re.search "pipelines/" Re.hex_hyphen (str w row) with
      | Some pipeline_id => Some pipeline_id
      | None => scan_result w rows'
      end
  | [] => None
  end.

(** The identifier the [try] block of [_get_warehouse_id] returns for a
    list of warehouses, if any. *)
Definition pick (warehouses : list EndpointInfo) : option string :=
  match
    List.find
      (λ wh, match wh_state wh with
             | Some value => String.eqb value "RUNNING"
             | None => false
             end)
      warehouses
  with
  | Some wh => Some (wh_id wh)
  | None =>
      match warehouses with
      | wh0 :: _ => Some (wh_id wh0)
      | [] => None
      end
  end.

(** The statements of the [execute_statement] calls of a trace, each with
    the warehouse it was sent to and its wait timeout, in the order of the
    calls. *)
Definition statements (t : list Event) : list (string * string * string) :=
  omap (λ ev, match ev with
              | ExecuteStatement warehouse_id statement wait_timeout =>
                  Some (warehouse_id, statement, wait_timeout)
              | _ => None
              end) t.

(** The number of warehouse list calls of a trace. *)
Definition listings (t : list Event) : nat :=
  length (omap (λ ev, match ev with WarehousesList => Some tt | _ => None end) t).

(** What [get_client] prints when the SDK cannot be imported. *)
Definition import_error_lines : list Event :=
  [ Print "Error: databricks-sdk not installed.";
    Print "Install with: pip install databricks-sdk" ].

End Vocabulary.

(** ** Concrete worlds, to run the script on examples *)

(** [str] of a list of plain strings (printable ASCII, no quote and no
    backslash): [['a', 'b']]. *)
Fixpoint plain_items (row : list string) : string :=
  match row with
  | [] => ""
  | [x] => "'" +:+ x +:+ "'"
  | x :: rest => "'" +:+ x +:+ "', " +:+ plain_items rest
  end.

Definition plain_str (row : list string) : string :=
  "[" +:+ plain_items row +:+ "]".

(** A service whose answers do not depend on the history. *)
Definition fixed_client
    (warehouses : Exception + list EndpointInfo)
    (describe : string → Exception + StatementResponse (list string))
    (update : string → Exception + unit) : WorkspaceClient (list string) :=
  {| warehouses_list := λ _, warehouses;
     execute_statement := λ _ _ statement _, describe statement;
     start_update := λ _ pipeline_id, update pipeline_id |}.

Definition world_of (env : list (string * string))
    (client : WorkspaceClient (list string)) : World (list string) :=
  {| str := plain_str; environ := list_to_map env; sdk := Ready client |}.

Definition rows (data : list (list string)) : StatementResponse (list string) :=
  {| result := Some {| data_array := Some data |} |}.

Definition ConnectionError : Exception :=
  {| exc_class := "ConnectionError"; exc_str := "connection refused" |}.

Definition stopped (id : string) : EndpointInfo :=
  {| wh_id := id; wh_state := Some "STOPPED" |}.

Definition started (id : string) : EndpointInfo :=
  {| wh_id := id; wh_state := Some "RUNNING" |}.

(** A service with the warehouses [w1] (stopped) and [w2] (running), on
    which every statement fails and every update starts. *)
Definition two_warehouses : WorkspaceClient (list string) :=
  fixed_client (inr [stopped "w1"; started "w2"])
    (λ _, inl ConnectionError) (λ _, inr tt).

(** What [DESCRIBE EXTENDED] answers for a materialized metric view; the
    second row mentions [pipelines/] without an identifier after it. *)
Definition describe_output : list (list string) :=
  [ ["Type"; "METRIC_VIEW"];
    ["Note"; "see pipelines/ (none yet)"];
    ["Pipeline URL";
     "https://adb.example.net/#joblist/pipelines/3f9a7b2c-1111-2222-3333-444455556666"] ].

(** A service with two warehouses, one metric view with a pipeline, one
    view whose description fails, empty descriptions for all others, and
    on which the update of [p1] fails. *)
Definition catalog : WorkspaceClient (list string) :=
  fixed_client (inr [stopped "w1"; started "w2"])
    (λ statement,
       if String.eqb statement "DESCRIBE EXTENDED main.sales.mv_orders"
       then inr (rows describe_output)
       else if String.eqb statement "DESCRIBE EXTENDED main.sales.broken"
       then inl ConnectionError
       else inr (rows []))
    (λ pipeline_id,
       if String.eqb pipeline_id "p1" then inl ConnectionError else inr tt).

(** A process in which the SDK is not installed. *)
Definition no_sdk : World (list string) :=
  {| str := plain_str; environ := ∅; sdk := ImportFails |}.


(** A process in which building the client fails on a missing module. *)
Definition broken_sdk : World (list string) :=
  {| str := plain_str;
     environ := ∅;
     sdk := InitRaises {| exc_class := "ModuleNotFoundError";
                          exc_str := "No module named 'requests'" |} |}.

(** A service that cannot be reached at all. *)
Definition unreachable : WorkspaceClient (list string) :=
  fixed_client (inl ConnectionError) (λ _, inl ConnectionError)
    (λ _, inl ConnectionError).
(** ** Facts about the regular-expression search *)

Section Search.

#[local] Arguments String.append !_ _ / : simpl nomatch.

Lemma string_app_assoc (a b c : string) : (a +:+ b) +:+ c = a +:+ b +:+ c.
Proof. induction a as [|x a IH]; simpl; [done | by rewrite IH]. Qed.

Lemma strip_prefix_Some lit s rest :
  Re.strip_prefix lit s = Some rest ↔ s = lit +:+ rest.
Proof.
  revert s. induction lit as [|a lit IH]; intros s; simpl.
  - split; [by intros [= ->] | by intros ->].
  - destruct s as [|b s].
    + split; [done | discriminate].
    + destruct (Ascii.eqb_spec a b) as [->|Hne].
      * rewrite IH. split; [by intros -> | by intros [= ->]].
      * split; [done | intros [= -> _]; done].
Qed.

Lemma strip_prefix_app lit rest : Re.strip_prefix lit (lit +:+ rest) = Some rest.
Proof. by apply strip_prefix_Some. Qed.

Lemma span_split cls s :
  ∃ post, s = Re.span cls s +:+ post ∧ Re.maximal cls post.
Proof.
  induction s as [|c s (post & Hs & Hmax)]; simpl.
  - by exists EmptyString.
  - destruct (cls c) eqn:Hc.
    + exists post. simpl. by rewrite <- Hs.
    + exists (String c s). by simpl.
Qed.

Lemma span_all cls s : Re.all cls (Re.span cls s) = true.
Proof.
  induction s as [|c s IH]; simpl; [done|].
  destruct (cls c) eqn:Hc; simpl; [by rewrite Hc | done].
Qed.

Lemma span_app_maximal cls tok post :
  Re.all cls tok = true → Re.maximal cls post →
  Re.span cls (tok +:+ post) = tok.
Proof.
  intros Hall Hmax. induction tok as [|c tok IH]; simpl in *.
  - destruct post as [|c post]; simpl in *; [done | by rewrite Hmax].
  - apply andb_true_iff in Hall as [-> Hall]. by rewrite IH.
Qed.

Lemma span_app_nonempty cls tok post :
  Re.all cls tok = true → tok ≠ EmptyString →
  Re.nonempty (Re.span cls (tok +:+ post)) = true.
Proof.
  intros Hall Hne. destruct tok as [|c tok]; [done|]. simpl in *.
  by apply andb_true_iff in Hall as [-> _].
Qed.

Lemma nonempty_true s : Re.nonempty s = true ↔ s ≠ EmptyString.
Proof. by destruct s. Qed.

(** A match at the start of [s] is an occurrence at position 0 whose token is
    maximal. *)
Lemma match_here_Some lit cls s g :
  Re.match_here lit cls s = Some g →
  ∃ post, Re.occurs lit cls s EmptyString g post ∧ Re.maximal cls post.
Proof.
  unfold Re.match_here. destruct (Re.strip_prefix lit s) as [rest|] eqn:Hp; [|done].
  apply strip_prefix_Some in Hp as ->.
  destruct (Re.nonempty (Re.span cls rest)) eqn:Hne; [|done]. intros [= <-].
  destruct (span_split cls rest) as (post & Hrest & Hmax).
  exists post. split; [|done]. split_and!.
  - simpl. by rewrite <- Hrest.
  - by apply nonempty_true.
  - apply span_all.
Qed.

(** No match at the start of [s]: no occurrence at position 0. *)
Lemma match_here_None lit cls s tok post :
  Re.match_here lit cls s = None → ¬ Re.occurs lit cls s EmptyString tok post.
Proof.
  intros Hm (-> & Hne & Hall). simpl in Hm. unfold Re.match_here in Hm.
  rewrite strip_prefix_app in Hm. simpl in Hm.
  by rewrite span_app_nonempty in Hm.
Qed.

Lemma occurs_cons lit cls c s pre tok post :
  Re.occurs lit cls (String c s) (String c pre) tok post ↔
  Re.occurs lit cls s pre tok post.
Proof.
  unfold Re.occurs. simpl. split.
  - intros ([= ->] & ? & ?). done.
  - intros (-> & ? & ?). done.
Qed.

Lemma occurs_cons_inv lit cls c s pre tok post :
  Re.occurs lit cls (String c s) pre tok post →
  pre = EmptyString ∨ ∃ pre', pre = String c pre' ∧ Re.occurs lit cls s pre' tok post.
Proof.
  intros H. destruct pre as [|c' pre]; [by left|]. right.
  assert (c' = c) as -> by (destruct H as [H _]; simpl in H; congruence).
  exists pre. split; [done|]. by apply (occurs_cons lit cls c).
Qed.

Lemma search_Some lit cls s tok :
  Re.search lit cls s = Some tok ↔ Re.first_match lit cls s tok.
Proof.
  split.
  - revert tok. induction s as [|c s IH]; intros tok; simpl.
    + destruct (Re.match_here lit cls EmptyString) as [g|] eqn:Hm; [|done].
      intros [= ->]. apply match_here_Some in Hm as (post & Hocc & Hmax).
      exists EmptyString, post. split_and!; [done..|]. intros ???; simpl; lia.
    + destruct (Re.match_here lit cls (String c s)) as [g|] eqn:Hm.
      * intros [= ->]. apply match_here_Some in Hm as (post & Hocc & Hmax).
        exists EmptyString, post. split_and!; [done..|]. intros ???; simpl; lia.
      * intros (pre & post & Hocc & Hmax & Hmin)%IH.
        exists (String c pre), post. split_and!; [by apply occurs_cons | done |].
        intros pre2 tok2 post2 Hocc2.
        destruct (occurs_cons_inv _ _ _ _ _ _ _ Hocc2) as [->|(pre' & -> & H2)].
        -- exfalso. by apply match_here_None with (tok:=tok2) (post:=post2) in Hm.
        -- simpl. apply Hmin in H2. lia.
  - intros (pre & post & Hocc & Hmax & Hmin). revert s Hocc Hmin.
    induction pre as [|c pre IH]; intros s Hocc Hmin.
    + destruct Hocc as (-> & Hne & Hall). simpl.
      assert (Re.match_here lit cls (lit +:+ tok +:+ post) = Some tok) as Hm.
      { unfold Re.match_here. rewrite strip_prefix_app. simpl.
        rewrite span_app_maximal by done. by destruct tok. }
      destruct (lit +:+ tok +:+ post); simpl; by rewrite Hm.
    + assert (∃ s', s = String c s') as [s' ->]
        by (destruct Hocc as [-> _]; simpl; eauto).
      apply (proj1 (occurs_cons _ _ _ _ _ _ _)) in Hocc. simpl.
      destruct (Re.match_here lit cls (String c s')) as [g|] eqn:Hm.
      * apply match_here_Some in Hm as (post' & Hocc' & _).
        apply Hmin in Hocc'. simpl in Hocc'. lia.
      * apply IH; [done|]. intros pre2 tok2 post2 H2.
        apply (proj2 (occurs_cons lit cls c _ _ _ _)) in H2. apply Hmin in H2. simpl in H2. lia.
Qed.

Lemma search_None lit cls s :
  Re.search lit cls s = None ↔ Re.no_match lit cls s.
Proof.
  split.
  - induction s as [|c s IH]; simpl.
    + destruct (Re.match_here lit cls EmptyString) eqn:Hm; [done|]. intros _.
      intros [|??] tok post H; [by eapply match_here_None|].
      destruct H as [H _]. done.
    + destruct (Re.match_here lit cls (String c s)) eqn:Hm; [done|].
      intros Hs%IH pre tok post Hocc.
      destruct (occurs_cons_inv _ _ _ _ _ _ _ Hocc) as [->|(pre' & -> & H2)].
      * by eapply match_here_None.
      * by apply Hs in H2.
  - intros Hno. destruct (Re.search lit cls s) as [tok|] eqn:Hs; [|done].
    apply search_Some in Hs as (pre & post & Hocc & _). by apply Hno in Hocc.
Qed.

Lemma first_match_nonempty lit cls s tok :
  Re.first_match lit cls s tok → tok ≠ EmptyString.
Proof. by intros (pre & post & (_ & Hne & _) & _). Qed.

Lemma search_nonempty lit cls s tok :
  Re.search lit cls s = Some tok → tok ≠ EmptyString.
Proof. intros H%search_Some. by eapply first_match_nonempty. Qed.

(** The substring test agrees with [substring]. *)
Lemma contains_true lit s : Re.contains lit s = true ↔ substring lit s.
Proof.
  split.
  - induction s as [|c s IH]; simpl.
    + destruct (Re.strip_prefix lit EmptyString) as [rest|] eqn:Hp; [|done].
      intros _. apply strip_prefix_Some in Hp. by exists EmptyString, rest.
    + destruct (Re.strip_prefix lit (String c s)) as [rest|] eqn:Hp.
      * intros _. apply strip_prefix_Some in Hp. by exists EmptyString, rest.
      * intros (pre & post & ->)%IH. by exists (String c pre), post.
  - intros (pre & post & ->). induction pre as [|c pre IH]; simpl.
    + pose proof (strip_prefix_app lit post) as Hp.
      destruct (lit +:+ post); simpl; by rewrite Hp.
    + by destruct (Re.strip_prefix lit (String c (pre +:+ lit +:+ post))).
Qed.

(** The test [lit in row_str] never hides a match of the pattern. *)
Lemma contains_false_search lit cls s :
  Re.contains lit s = false → Re.search lit cls s = None.
Proof.
  induction s as [|c s IH]; simpl; unfold Re.match_here.
  - by destruct (Re.strip_prefix lit EmptyString).
  - destruct (Re.strip_prefix lit (String c s)); [done | exact IH].
Qed.

(** [lit] is there, never followed by a character of the class: no match. *)
Lemma never_followed_no_match lit cls s :
  never_followed lit cls s → Re.no_match lit cls s.
Proof.
  intros Hnf pre tok post (-> & Hne & Hall).
  specialize (Hnf pre (tok +:+ post) eq_refl).
  destruct tok as [|c tok]; [done|]. simpl in *.
  apply andb_true_iff in Hall as [Hc _]. congruence.
Qed.

Lemma no_match_never_followed lit cls s :
  Re.no_match lit cls s → never_followed lit cls s.
Proof.
  intros Hno pre post ->. destruct post as [|c post]; simpl; [done|].
  destruct (cls c) eqn:Hc; [|done].
  destruct (Hno pre (String c EmptyString) post).
  split_and!; [done | done | simpl; by rewrite Hc].
Qed.

End Search.

(** ** Facts about the script *)

Section Facts.

Context {Row : Type}.
Implicit Types (w : World Row) (client : WorkspaceClient Row).
Implicit Types (t : list Event).

Lemma get_client_ready w client t :
  sdk w = Ready client → get_client w t = (Returned client, t).
Proof. unfold get_client. by intros ->. Qed.

Lemma scan_result_Some w (rows : list Row) pid :
  scan_result w rows = Some pid ↔ first_yield w rows pid.
Proof.
  split.
  - induction rows as [|row rows IH]; simpl; [done|].
    destruct (Re.search _ _ (str w row)) as [p|] eqn:Hs.
    + intros [= ->]. exists [], row, rows. split_and!; [done | constructor |].
      by apply search_Some.
    + intros (before & r & after & -> & Hb & Hy)%IH.
      exists (row :: before), r, after. split_and!; [done | | done].
      constructor; [by apply search_None | done].
  - intros (before & row & after & -> & Hb & Hy).
    induction Hb as [|r before Hr _ IH]; simpl.
    + apply search_Some in Hy. unfold yields in Hy. by rewrite Hy.
    + apply search_None in Hr. by rewrite Hr.
Qed.

Lemma scan_result_None w (rows : list Row) :
  scan_result w rows = None ↔ Forall (yields_nothing w) rows.
Proof.
  induction rows as [|row rows IH]; simpl.
  - split; [constructor | done].
  - destruct (Re.search _ _ (str w row)) as [p|] eqn:Hs.
    + split; [done|]. intros [Hr%search_None _]%Forall_cons. congruence.
    + rewrite IH, Forall_cons. apply search_None in Hs.
      split; [by intros ? | by intros [_ ?]].
Qed.

Lemma scan_result_nonempty w (rows : list Row) pid :
  scan_result w rows = Some pid → pid ≠ EmptyString.
Proof.
  intros (_ & row & _ & _ & _ & Hy)%scan_result_Some.
  by eapply first_match_nonempty.
Qed.

(** The loop of [discover_pipeline] returns [scan_result] and prints one line
    when it finds an identifier. *)
Lemma scan_rows_run w (rows : list Row) t :
  scan_rows w rows t =
    (Returned (scan_result w rows),
     t ++ match scan_result w rows with
          | Some pid => [Print ("  Found pipeline ID: " +:+ pid)]
          | None => []
          end).
Proof.
  induction rows as [|row rows IH]; simpl.
  - unfold ret. by rewrite app_nil_r.
  - destruct (Re.contains "pipelines/" (str w row)) eqn:Hc.
    + destruct (Re.search _ _ (str w row)) as [p|] eqn:Hs; [done | exact IH].
    + by rewrite (contains_false_search _ _ _ Hc).
Qed.

Lemma if_truthy_Some o v : if_truthy o = Some v ↔ o = Some v ∧ v ≠ EmptyString.
Proof.
  destruct o as [[|c s]|]; simpl; split; try done.
  - by intros [[= <-] ?].
  - by intros [= <-].
  - by intros [[= <-] _].
  - by intros [? _].
Qed.

Lemma if_truthy_None o : if_truthy o = None ↔ o = None ∨ o = Some EmptyString.
Proof.
  destruct o as [[|c s]|]; simpl; split; try done; eauto.
  - by intros [?|?].
Qed.

Lemma running_test wh :
  match wh_state wh with
  | Some value => String.eqb value "RUNNING"
  | None => false
  end = true ↔ running wh.
Proof.
  unfold running. destruct (wh_state wh) as [v|]; [|done].
  rewrite String.eqb_eq. split; [by intros -> | by intros [= ->]].
Qed.

Lemma find_first_running (warehouses : list EndpointInfo) wh :
  first_running warehouses wh →
  List.find
    (λ wh, match wh_state wh with
           | Some value => String.eqb value "RUNNING"
           | None => false
           end) warehouses = Some wh.
Proof.
  intros (before & after & -> & Hb & Hr).
  induction Hb as [|x before Hx _ IH]; simpl.
  - apply running_test in Hr. by rewrite Hr.
  - destruct (match wh_state x with Some _ => _ | None => _ end) eqn:Hx'; [|done].
    by apply running_test in Hx'.
Qed.

Lemma find_none_running (warehouses : list EndpointInfo) :
  Forall (λ x, ¬ running x) warehouses →
  List.find
    (λ wh, match wh_state wh with
           | Some value => String.eqb value "RUNNING"
           | None => false
           end) warehouses = None.
Proof.
  induction 1 as [|x l Hx _ IH]; simpl; [done|].
  destruct (match wh_state x with Some _ => _ | None => _ end) eqn:Hx'; [|done].
  by apply running_test in Hx'.
Qed.

Lemma pick_None warehouses : pick warehouses = None ↔ warehouses = [].
Proof.
  unfold pick. destruct (List.find _ warehouses) eqn:Hf.
  - split; [done|]. intros ->. done.
  - by destruct warehouses.
Qed.

Lemma list_and_pick_run client t :
  list_and_pick client t =
    match warehouses_list client t with
    | inl e => (Raised e, t ++ [WarehousesList])
    | inr warehouses => (Returned (pick warehouses), t ++ [WarehousesList])
    end.
Proof.
  unfold list_and_pick, bind, call_warehouses_list, answer, pick, ret.
  destruct (warehouses_list client t) as [e|warehouses]; [done|].
  destruct (List.find _ warehouses); [done|]. by destruct warehouses.
Qed.

(** An explicit, non-empty [DATABRICKS_WAREHOUSE_ID] wins and nothing is
    listed. *)
Lemma get_warehouse_id_explicit w client t v :
  environ w !! "DATABRICKS_WAREHOUSE_ID" = Some v → v ≠ EmptyString →
  _get_warehouse_id w client t = (Returned v, t).
Proof.
  intros Hv Hne. unfold _get_warehouse_id.
  by rewrite (proj2 (if_truthy_Some _ v) (conj Hv Hne)).
Qed.

(** Then comes the identifier in [DATABRICKS_HTTP_PATH]. *)
Lemma get_warehouse_id_http_path w client t http_path id :
  unset_or_empty (environ w) "DATABRICKS_WAREHOUSE_ID" →
  environ w !! "DATABRICKS_HTTP_PATH" = Some http_path →
  Re.first_match "/warehouses/" Re.hex http_path id →
  _get_warehouse_id w client t = (Returned id, t).
Proof.
  intros Hw%if_truthy_None Hp Hm%search_Some. unfold _get_warehouse_id.
  rewrite Hw, Hp. simpl. by rewrite Hm.
Qed.

(** Without an override the answer of the list call decides. *)
Lemma get_warehouse_id_listing w client t :
  no_env_override w →
  _get_warehouse_id w client t =
    (match warehouses_list client t with
     | inr (wh0 :: rest) =>
         Returned (default (wh_id wh0) (pick (wh0 :: rest)))
     | _ => Raised (ValueError resolution_error_message)
     end, t ++ [WarehousesList]).
Proof.
  intros [Hw%if_truthy_None Hp]. unfold _get_warehouse_id. rewrite Hw.
  assert (Re.search "/warehouses/" Re.hex
            (default "" (environ w !! "DATABRICKS_HTTP_PATH")) = None) as ->.
  { destruct (environ w !! "DATABRICKS_HTTP_PATH") as [p|] eqn:E; simpl.
    - apply search_None. by apply Hp.
    - done. }
  unfold bind, try_except. rewrite list_and_pick_run.
  destruct (warehouses_list client t) as [e|[|wh0 rest]]; [done..|].
  destruct (pick (wh0 :: rest)) as [id|] eqn:Hpick; [done|].
  by apply pick_None in Hpick.
Qed.

(** Either no override resolves, or one does and the result is settled
    without any remote call. *)
Lemma env_override_dec w :
  no_env_override w ∨
  ∃ id, id ≠ EmptyString ∧
        ∀ client t, _get_warehouse_id w client t = (Returned id, t).
Proof.
  destruct (if_truthy (environ w !! "DATABRICKS_WAREHOUSE_ID")) as [v|] eqn:Hw.
  { right. exists v. apply if_truthy_Some in Hw as [Hv Hne]. split; [done|].
    intros. by apply get_warehouse_id_explicit. }
  apply if_truthy_None in Hw.
  destruct (environ w !! "DATABRICKS_HTTP_PATH") as [p|] eqn:Hp.
  - destruct (Re.search "/warehouses/" Re.hex p) as [id|] eqn:Hs.
    + right. exists id. split; [by eapply search_nonempty|].
      intros. eapply get_warehouse_id_http_path; [done..|]. by apply search_Some.
    + left. split; [done|]. intros p' Hp'. rewrite Hp in Hp'.
      injection Hp' as <-. by apply search_None.
  - left. split; [done|]. intros p' Hp'. by rewrite Hp in Hp'.
Qed.

(** [_get_warehouse_id] never exits the process. *)
Lemma get_warehouse_id_no_exit w client t c t' :
  _get_warehouse_id w client t ≠ (SystemExit c, t').
Proof.
  destruct (env_override_dec w) as [Hno|(id & _ & Hid)].
  - rewrite get_warehouse_id_listing by done.
    by destruct (warehouses_list client t) as [e|[|wh0 rest]].
  - by rewrite Hid.
Qed.

(** [discover_pipeline], unfolded once the client is there. *)
Lemma discover_pipeline_run w client view t :
  sdk w = Ready client →
  discover_pipeline w view t =
    match _get_warehouse_id w client (t ++ [lookup_line view]) with
    | (Returned warehouse_id, t1) =>
        let call :=
          ExecuteStatement warehouse_id ("DESCRIBE EXTENDED " +:+ view) "30s" in
        match
          execute_statement client t1 warehouse_id
            ("DESCRIBE EXTENDED " +:+ view) "30s"
        with
        | inr response =>
            (Returned (scan_result w (rows_of response)),
             t1 ++ [call] ++
               match scan_result w (rows_of response) with
               | Some pid => [Print ("  Found pipeline ID: " +:+ pid)]
               | None =>
                   [Print "  No pipeline found. Make sure the metric view has materialization enabled."]
               end)
        | inl e => (Returned None, t1 ++ [call] ++ error_report e view)
        end
    | (Raised e, t1) => (Returned None, t1 ++ error_report e view)
    | (SystemExit c, t1) => (SystemExit c, t1)
    end.
Proof.
  intros Hsdk. unfold discover_pipeline, bind at 1.
  rewrite (get_client_ready _ _ _ Hsdk). unfold bind at 1, print at 1.
  unfold try_except, bind at 1, lookup_line.
  destruct (_get_warehouse_id w client _) as [[wid|e|c] t1] eqn:Hres.
  - unfold bind at 1, call_execute_statement, answer.
    destruct (execute_statement client t1 wid _ _) as [e|response].
    + unfold error_report, bind, print, ret. simpl.
      by rewrite <- !app_assoc.
    + unfold bind at 1. rewrite scan_rows_run.
      destruct (scan_result w (rows_of response)) as [pid|].
      * unfold ret. by rewrite <- !app_assoc.
      * unfold bind, print, ret. by rewrite <- !app_assoc.
  - unfold error_report, bind, print, ret. simpl. by rewrite <- !app_assoc.
  - done.
Qed.

Lemma rows_of_nil (response : StatementResponse Row) :
  rows_of response = [] ↔ carries_no_rows response.
Proof.
  unfold rows_of, carries_no_rows.
  destruct (result response) as [r|]; [|by split; [left|]].
  destruct (data_array r) as [[|row rows']|] eqn:Hd; split; try done.
  - intros _. right. exists r. eauto.
  - intros [?|(r' & [= <-] & [?|?])]; congruence.
  - intros _. right. exists r. eauto.
Qed.

Lemma rows_of_carries (response : StatementResponse Row) (rows : list Row) :
  carries_rows response rows → rows_of response = rows.
Proof. intros (r & Hr & Hd). unfold rows_of. by rewrite Hr, Hd. Qed.

Lemma rows_of_cases (response : StatementResponse Row) :
  (carries_no_rows response ∧ rows_of response = []) ∨
  carries_rows response (rows_of response).
Proof.
  unfold rows_of, carries_no_rows, carries_rows.
  destruct (result response) as [r|]; [|left; by split; [left|]].
  destruct (data_array r) as [rows'|] eqn:Hd.
  - right. by exists r.
  - left. split; [|done]. right. exists r. eauto.
Qed.

(** ** Pipeline discovery *)

(** C1: whatever [execute_statement] returns, [discover_pipeline] returns the
    identifier of the first row of the response's [data_array], in the order
    of the array, whose string holds [pipelines/] followed by a non-empty
    token of lower-case hexadecimal digits and hyphens (the token of the
    leftmost such place of that row); it returns [None] exactly when the
    response carries no rows or no row of the array holds such a match. *)
Theorem discover_pipeline_first_yield w client view t warehouse_id t1 response :
  sdk w = Ready client →
  _get_warehouse_id w client (t ++ [lookup_line view]) = (Returned warehouse_id, t1) →
  execute_statement client t1 warehouse_id ("DESCRIBE EXTENDED " +:+ view) "30s"
    = inr response →
  ∃ found,
    fst (discover_pipeline w view t) = Returned found ∧
    (∀ pipeline_id,
       found = Some pipeline_id ↔
       ∃ rows, carries_rows response rows ∧ first_yield w rows pipeline_id) ∧
    (found = None ↔
       carries_no_rows response ∨
       ∃ rows, carries_rows response rows ∧ Forall (yields_nothing w) rows).
Proof.
  intros Hsdk Hres Hexec. rewrite (discover_pipeline_run _ _ _ _ Hsdk), Hres.
  cbv zeta. rewrite Hexec. cbn [fst]. exists (scan_result w (rows_of response)).
  split_and!; [done | |].
  - intros pid. rewrite scan_result_Some. split.
    + intros Hy. destruct (rows_of_cases response) as [[_ Hnil]|Hc]; [|eauto].
      rewrite Hnil in Hy. destruct Hy as (before & row & after & Heq & _).
      by destruct before.
    + intros (rows' & Hc & Hy). by rewrite (rows_of_carries _ _ Hc).
  - rewrite scan_result_None. split.
    + intros Hall. destruct (rows_of_cases response) as [[Hno _]|Hc]; eauto.
    + intros [Hno%rows_of_nil|(rows' & Hc & Hall)].
      * rewrite Hno. constructor.
      * by rewrite (rows_of_carries _ _ Hc).
Qed.

(** C10: a row that holds [pipelines/] without any occurrence followed by a
    character of [[a-f0-9-]] does not stop the scan; the identifier of a
    later row that has a well-formed one is still returned. *)
Theorem discover_pipeline_skips_malformed
    w client view t warehouse_id t1 response before bad between good after
    pipeline_id :
  sdk w = Ready client →
  _get_warehouse_id w client (t ++ [lookup_line view]) = (Returned warehouse_id, t1) →
  execute_statement client t1 warehouse_id ("DESCRIBE EXTENDED " +:+ view) "30s"
    = inr response →
  rows_of response = before ++ bad :: between ++ good :: after →
  Forall (yields_nothing w) before →
  substring "pipelines/" (str w bad) →
  never_followed "pipelines/" Re.hex_hyphen (str w bad) →
  Forall (yields_nothing w) between →
  yields w good pipeline_id →
  fst (discover_pipeline w view t) = Returned (Some pipeline_id).
Proof.
  intros Hsdk Hres Hexec Hrows Hbefore _ Hbad Hbetween Hgood.
  rewrite (discover_pipeline_run _ _ _ _ Hsdk), Hres. cbv zeta.
  rewrite Hexec. cbn [fst]. f_equal. apply scan_result_Some.
  exists (before ++ bad :: between), good, after. split_and!; [|  | done].
  - by rewrite Hrows, <- app_assoc.
  - apply Forall_app. split; [done|]. constructor; [|done].
    by apply never_followed_no_match.
Qed.

(** ** Warehouse resolution *)

(** C2, as amended: the order of resolution is (1) the value of
    [DATABRICKS_WAREHOUSE_ID] when it is set to a non-empty string, returned
    without listing warehouses; (2) otherwise the identifier the pattern
    [/warehouses/<id>] extracts from [DATABRICKS_HTTP_PATH], when that is set
    and matches; (3) otherwise, from the listed warehouses, the first one
    whose state is RUNNING or, when none is running, the first of the list
    whatever its state. *)
Theorem get_warehouse_id_priority w client t :
  (∀ v, environ w !! "DATABRICKS_WAREHOUSE_ID" = Some v → v ≠ "" →
        _get_warehouse_id w client t = (Returned v, t)) ∧
  (∀ http_path id,
     unset_or_empty (environ w) "DATABRICKS_WAREHOUSE_ID" →
     environ w !! "DATABRICKS_HTTP_PATH" = Some http_path →
     Re.first_match "/warehouses/" Re.hex http_path id →
     _get_warehouse_id w client t = (Returned id, t)) ∧
  (∀ warehouses wh,
     no_env_override w → warehouses_list client t = inr warehouses →
     first_running warehouses wh →
     _get_warehouse_id w client t = (Returned (wh_id wh), t ++ [WarehousesList])) ∧
  (∀ wh0 rest,
     no_env_override w → warehouses_list client t = inr (wh0 :: rest) →
     Forall (λ x, ¬ running x) (wh0 :: rest) →
     _get_warehouse_id w client t = (Returned (wh_id wh0), t ++ [WarehousesList])).
Proof.
  split_and!.
  - intros v. apply get_warehouse_id_explicit.
  - intros p id. apply get_warehouse_id_http_path.
  - intros warehouses wh Hno Hlist Hfirst.
    rewrite (get_warehouse_id_listing _ _ _ Hno), Hlist.
    pose proof (find_first_running _ _ Hfirst) as Hfind.
    destruct warehouses as [|wh0 rest]; [done|].
    unfold pick. by rewrite Hfind.
  - intros wh0 rest Hno Hlist Hnone.
    rewrite (get_warehouse_id_listing _ _ _ Hno), Hlist.
    unfold pick. by rewrite (find_none_running _ Hnone).
Qed.

(** C7: [_get_warehouse_id] raises the resolution error, whose message tells
    the operator to set [DATABRICKS_WAREHOUSE_ID] or [DATABRICKS_HTTP_PATH],
    when no environment override resolves and the warehouse list call raises
    or returns the empty list; in every other case it returns an identifier. *)
Theorem get_warehouse_id_raises_iff w client t :
  (no_env_override w ∧ listing_fails client t →
   fst (_get_warehouse_id w client t) =
     Raised (ValueError
       "Could not determine warehouse ID. Set DATABRICKS_WAREHOUSE_ID or DATABRICKS_HTTP_PATH environment variable.")) ∧
  (¬ (no_env_override w ∧ listing_fails client t) →
   ∃ id, fst (_get_warehouse_id w client t) = Returned id).
Proof.
  split.
  - intros [Hno Hfail]. rewrite (get_warehouse_id_listing _ _ _ Hno).
    by destruct Hfail as [[e ->] | ->].
  - intros Hnot. destruct (env_override_dec w) as [Hno|(id & _ & Hid)].
    + rewrite (get_warehouse_id_listing _ _ _ Hno).
      destruct (warehouses_list client t) as [e|[|wh0 rest]] eqn:Hlist.
      * destruct Hnot. split; [done|]. left. by exists e.
      * destruct Hnot. split; [done|]. by right.
      * eauto.
    + exists id. by rewrite Hid.
Qed.

(** C9: [DATABRICKS_WAREHOUSE_ID] set to the empty string is treated exactly
    as if it were unset.  The result is that of the same environment without
    the variable; the empty string is not returned but resolution goes on,
    first with the identifier of [DATABRICKS_HTTP_PATH] when that is set and
    matches, and otherwise with the warehouse list (the first running
    warehouse, else the first one, else the resolution error); and an
    identifier returned without listing warehouses, that is by one of the
    two environment branches, is never empty. *)
Theorem empty_warehouse_id_as_unset w client t :
  _get_warehouse_id
    (with_environ (<["DATABRICKS_WAREHOUSE_ID" := ""]> (environ w)) w) client t =
  _get_warehouse_id
    (with_environ (delete "DATABRICKS_WAREHOUSE_ID" (environ w)) w) client t ∧
  (∀ id, _get_warehouse_id w client t = (Returned id, t) → id ≠ "") ∧
  (environ w !! "DATABRICKS_WAREHOUSE_ID" = Some "" →
   (∀ http_path id,
      environ w !! "DATABRICKS_HTTP_PATH" = Some http_path →
      Re.first_match "/warehouses/" Re.hex http_path id →
      _get_warehouse_id w client t = (Returned id, t)) ∧
   ((∀ http_path,
       environ w !! "DATABRICKS_HTTP_PATH" = Some http_path →
       Re.no_match "/warehouses/" Re.hex http_path) →
    (∀ warehouses wh,
       warehouses_list client t = inr warehouses →
       first_running warehouses wh →
       _get_warehouse_id w client t =
         (Returned (wh_id wh), t ++ [WarehousesList])) ∧
    (∀ wh0 rest,
       warehouses_list client t = inr (wh0 :: rest) →
       Forall (λ x, ¬ running x) (wh0 :: rest) →
       _get_warehouse_id w client t =
         (Returned (wh_id wh0), t ++ [WarehousesList])) ∧
    (listing_fails client t →
     _get_warehouse_id w client t =
       (Raised (ValueError resolution_error_message), t ++ [WarehousesList])))).
Proof.
  split_and!.
  - unfold _get_warehouse_id. simpl.
    rewrite lookup_insert_eq, lookup_delete_eq. simpl.
    by rewrite lookup_insert_ne, lookup_delete_ne.
  - intros id Hid. destruct (env_override_dec w) as [Hno|(id' & Hne & Hid')].
    + rewrite (get_warehouse_id_listing _ _ _ Hno) in Hid.
      injection Hid as _ Ht. apply (f_equal length) in Ht.
      rewrite length_app in Ht. simpl in Ht. lia.
    + rewrite Hid' in Hid. by injection Hid as <-.
  - intros Hempty. split.
    + intros p id Hp Hm.
      by apply (get_warehouse_id_http_path w client t p id); [right | |].
    + intros Hpath.
      assert (no_env_override w) as Hno by (split; [by right | done]).
      rewrite (get_warehouse_id_listing _ _ _ Hno). split_and!.
      * intros warehouses wh Hlist Hfirst. rewrite Hlist.
        pose proof (find_first_running _ _ Hfirst) as Hfind.
        destruct warehouses as [|wh0 rest]; [done|].
        unfold pick. by rewrite Hfind.
      * intros wh0 rest Hlist Hnone. rewrite Hlist.
        unfold pick. by rewrite (find_none_running _ Hnone).
      * by intros [[e ->] | ->].
Qed.

(** ** Loops over views and over pipeline identifiers *)

(** With a client, [discover_pipeline] always returns; what it returns is
    never the empty string, and its first event is the lookup line. *)
Lemma discover_pipeline_returns w client view t :
  sdk w = Ready client →
  ∃ found more,
    discover_pipeline w view t = (Returned found, t ++ lookup_line view :: more) ∧
    found ≠ Some "".
Proof.
  intros Hsdk. rewrite (discover_pipeline_run _ _ _ _ Hsdk).
  assert (∃ o k, _get_warehouse_id w client (t ++ [lookup_line view]) =
                   (o, (t ++ [lookup_line view]) ++ k) ∧
                 ∀ c, o ≠ SystemExit c) as (o & k & -> & Ho).
  { destruct (env_override_dec w) as [Hno|(id & _ & Hid)].
    - rewrite (get_warehouse_id_listing _ _ _ Hno). eexists _, [WarehousesList].
      split; [done|]. intros c.
      by destruct (warehouses_list client _) as [e|[|wh0 rest]].
    - rewrite Hid. exists (Returned id), []. by rewrite app_nil_r. }
  rewrite <- app_assoc. simpl. destruct o as [wid|e|c].
  - cbv zeta. destruct (execute_statement client _ _ _ _) as [e|response].
    + eexists None, _. split; [|done]. by rewrite <- app_assoc.
    + eexists _, _. split; [by rewrite <- app_assoc|].
      destruct (scan_result w (rows_of response)) as [pid|] eqn:Hscan; [|done].
      apply scan_result_nonempty in Hscan. congruence.
  - eexists None, _. split; [|done]. by rewrite <- app_assoc.
  - by destruct (Ho c).
Qed.

(** The loop of [--discover] looks every view up and returns. *)
Lemma discover_each_run w client views t :
  sdk w = Ready client →
  ∃ more,
    discover_each w views t = (Returned tt, t ++ more) ∧
    ∀ view, view ∈ views → lookup_line view ∈ more.
Proof.
  intros Hsdk. revert t. induction views as [|view rest IH]; intros t; simpl.
  - exists []. rewrite app_nil_r. split; [done|]. by intros ? ?%elem_of_nil.
  - destruct (discover_pipeline_returns w client view t Hsdk)
      as (found & k & Hrun & _).
    unfold bind at 1. rewrite Hrun.
    destruct (IH (t ++ lookup_line view :: k)) as (more & -> & Hmore).
    exists (lookup_line view :: k ++ more). split.
    + by rewrite <- app_assoc.
    + intros v [->|Hv]%elem_of_cons; [left|].
      right. apply elem_of_app. right. by apply Hmore.
Qed.

(** The loop of [--refresh] collects exactly the results of the discoveries
    that are not [None], after those it started with, and looks every view
    up. *)
Lemma collect_each_run w client views pipeline_ids t :
  sdk w = Ready client →
  ∃ results more,
    discover_all w views t = (Returned results, t ++ more) ∧
    collect_each w views pipeline_ids t =
      (Returned (pipeline_ids ++ resolved results), t ++ more) ∧
    ∀ view, view ∈ views → lookup_line view ∈ more.
Proof.
  intros Hsdk. revert pipeline_ids t.
  induction views as [|view rest IH]; intros ids t; simpl.
  - exists [], []. unfold ret. rewrite !app_nil_r.
    split_and!; [done..|]. by intros ? ?%elem_of_nil.
  - destruct (discover_pipeline_returns w client view t Hsdk)
      as (found & k & Hrun & Hne).
    unfold bind at 1 3. rewrite Hrun.
    destruct (IH (match if_truthy found with
                  | Some pid' => ids ++ [pid']
                  | None => ids
                  end) (t ++ lookup_line view :: k))
      as (results & more & Hall & -> & Hmore).
    exists (found :: results), (lookup_line view :: k ++ more).
    unfold bind at 1. rewrite Hall. unfold ret. rewrite <- !app_assoc.
    split_and!; [done | |].
    + f_equal. f_equal. unfold resolved.
      destruct found as [[|c pid]|]; simpl; [done | | done].
      by rewrite <- app_assoc.
    + intros v [->|Hv]%elem_of_cons; [left|].
      right. apply elem_of_app. right. by apply Hmore.
Qed.

(** The loop of [refresh_pipelines] always returns, adding the expected
    chunk for each identifier. *)
Lemma refresh_loop_run client pipeline_ids t :
  refresh_loop client pipeline_ids t =
    (Returned tt, t ++ concat (refresh_chunks client t pipeline_ids)).
Proof.
  revert t. induction pipeline_ids as [|pid rest IH]; intros t; simpl.
  - unfold ret. by rewrite app_nil_r.
  - unfold bind at 1, print at 1. unfold bind at 1, try_except at 1.
    unfold bind at 1, call_start_update, answer, start_line.
    destruct (start_update client _ pid) as [e|[]]; simpl;
      unfold print; rewrite IH; by rewrite <- !app_assoc.
Qed.

Lemma refresh_chunks_length client t pipeline_ids :
  length (refresh_chunks client t pipeline_ids) = length pipeline_ids.
Proof.
  revert t. induction pipeline_ids as [|pid rest IH]; intros t; simpl;
    [done | by rewrite IH].
Qed.

(** The chunk of the identifier at index [i]: its report is for the answer
    the service gave after all the earlier chunks. *)
Lemma refresh_chunks_lookup client t pipeline_ids i pipeline_id :
  pipeline_ids !! i = Some pipeline_id →
  refresh_chunks client t pipeline_ids !! i =
    Some [ start_line pipeline_id;
           StartUpdate pipeline_id;
           report_line
             (start_update client
                (t ++ concat (take i (refresh_chunks client t pipeline_ids)) ++
                   [start_line pipeline_id])
                pipeline_id) ].
Proof.
  revert t i. induction pipeline_ids as [|pid rest IH]; intros t i; [done|].
  destruct i as [|i]; simpl.
  - by intros [= ->].
  - intros Hi. rewrite (IH _ _ Hi). by rewrite <- !app_assoc.
Qed.

Lemma refresh_chunks_start_updates client t pipeline_ids :
  start_updates (concat (refresh_chunks client t pipeline_ids)) = pipeline_ids.
Proof.
  revert t. induction pipeline_ids as [|pid rest IH]; intros t; [done|].
  simpl. unfold start_updates in *. simpl.
  destruct (start_update client _ pid); simpl; by rewrite IH.
Qed.

Lemma refresh_pipelines_run w client pipeline_ids t :
  sdk w = Ready client →
  refresh_pipelines w pipeline_ids t =
    (Returned tt, t ++ concat (refresh_chunks client t pipeline_ids)).
Proof.
  intros Hsdk. unfold refresh_pipelines, bind.
  rewrite (get_client_ready _ _ _ Hsdk). apply refresh_loop_run.
Qed.

(** ** Command dispatch *)

Lemma main_discover w script view rest t :
  main w (script :: "--discover" :: view :: rest) t =
    discover_each w (view :: rest) t.
Proof. done. Qed.

Lemma main_refresh w script view rest t :
  main w (script :: "--refresh" :: view :: rest) t =
    (let! pipeline_ids := collect_each w (view :: rest) [] in
     match pipeline_ids with
     | _ :: _ => print "" ;;; refresh_pipelines w pipeline_ids
     | [] => print "No pipelines found to refresh." ;;; sys_exit 1
     end) t.
Proof. done. Qed.

Lemma main_direct w script first rest t :
  first ≠ "--discover" → first ≠ "--refresh" →
  main w (script :: first :: rest) t = refresh_pipelines w (first :: rest) t.
Proof.
  intros H1%String.eqb_neq H2%String.eqb_neq. unfold main. simpl.
  unfold bind at 1, getitem. simpl. by rewrite H1, H2.
Qed.

(** What follows a discovery that returned [found] at trace [t'], in both
    loops over views: the remaining views are all looked up. *)
Lemma loops_go_on w client view rest t found t' :
  sdk w = Ready client →
  discover_pipeline w view t = (Returned found, t') →
  (∃ more,
     discover_each w (view :: rest) t = (Returned tt, t' ++ more) ∧
     ∀ v, v ∈ rest → lookup_line v ∈ more) ∧
  (∀ pipeline_ids, ∃ collected more,
     collect_each w (view :: rest) pipeline_ids t = (Returned collected, t' ++ more) ∧
     ∀ v, v ∈ rest → lookup_line v ∈ more).
Proof.
  intros Hsdk Hrun. split.
  - simpl. unfold bind at 1. rewrite Hrun.
    apply (discover_each_run w client rest t' Hsdk).
  - intros ids. simpl. unfold bind at 1. rewrite Hrun.
    destruct (collect_each_run w client rest
                (match if_truthy found with
                 | Some pid' => ids ++ [pid']
                 | None => ids
                 end) t' Hsdk) as (results & more & _ & Hc & Hmore).
    eauto.
Qed.

Lemma first_match_all lit cls s tok :
  Re.first_match lit cls s tok → Re.all cls tok = true.
Proof. by intros (pre & post & (_ & _ & Hall) & _). Qed.

Lemma start_updates_app t1 t2 :
  start_updates (t1 ++ t2) = start_updates t1 ++ start_updates t2.
Proof. apply omap_app. Qed.

Lemma statements_app t1 t2 :
  statements (t1 ++ t2) = statements t1 ++ statements t2.
Proof. apply omap_app. Qed.

Lemma listings_app t1 t2 : listings (t1 ++ t2) = listings t1 + listings t2.
Proof. unfold listings. by rewrite omap_app, length_app. Qed.

(** What one discovery adds to the trace, seen through the remote calls. *)
Lemma discover_pipeline_calls w client view t :
  sdk w = Ready client →
  ∃ found more,
    discover_pipeline w view t = (Returned found, t ++ more) ∧
    start_updates more = [] ∧
    ((∃ e, fst (_get_warehouse_id w client (t ++ [lookup_line view])) = Raised e ∧
           statements more = []) ∨
     ∃ warehouse_id,
       fst (_get_warehouse_id w client (t ++ [lookup_line view])) =
         Returned warehouse_id ∧
       statements more =
         [(warehouse_id, "DESCRIBE EXTENDED " +:+ view, "30s")]) ∧
    (no_env_override w → listings more = 1) ∧
    (¬ no_env_override w → listings more = 0).
Proof.
  intros Hsdk. rewrite (discover_pipeline_run _ _ _ _ Hsdk).
  destruct (env_override_dec w) as [Hno|(id & _ & Hid)].
  - rewrite (get_warehouse_id_listing _ _ _ Hno).
    destruct (warehouses_list client _) as [e|[|wh0 rest]].
    + eexists _, _. split; [by rewrite <- !app_assoc|].
      split_and!; [done | left; by eexists | done | done].
    + eexists _, _. split; [by rewrite <- !app_assoc|].
      split_and!; [done | left; by eexists | done | done].
    + cbv zeta. destruct (execute_statement client _ _ _ _) as [e|response].
      * eexists _, _. split; [by rewrite <- !app_assoc|].
        split_and!; [done | right; by eexists | done | done].
      * eexists _, _. split; [by rewrite <- !app_assoc|].
        destruct (scan_result w (rows_of response));
          (split_and!; [done | right; by eexists | done | done]).
  - rewrite Hid. cbv zeta.
    assert (¬ no_env_override w) as Hyes.
    { intros Hno. specialize (Hid client t).
      rewrite (get_warehouse_id_listing _ _ _ Hno) in Hid.
      injection Hid as _ Ht. apply (f_equal length) in Ht.
      rewrite length_app in Ht. simpl in Ht. lia. }
    destruct (execute_statement client _ _ _ _) as [e|response].
    + eexists _, _. split; [by rewrite <- !app_assoc|].
      split_and!; [done | right; by eexists | done | done].
    + eexists _, _. split; [by rewrite <- !app_assoc|].
      destruct (scan_result w (rows_of response));
        (split_and!; [done | right; by eexists | done | done]).
Qed.

(** The loop of [--discover], seen through the remote calls. *)
Lemma discover_each_calls w client views t :
  sdk w = Ready client →
  ∃ more,
    discover_each w views t = (Returned tt, t ++ more) ∧
    start_updates more = [] ∧
    length (statements more) ≤ length views ∧
    (no_env_override w → listings more = length views) ∧
    (¬ no_env_override w → listings more = 0).
Proof.
  intros Hsdk. revert t. induction views as [|view rest IH]; intros t; simpl.
  - exists []. by rewrite app_nil_r.
  - destruct (discover_pipeline_calls w client view t Hsdk)
      as (found & k & Hrun & Hup & Hst & Hl1 & Hl0).
    unfold bind at 1. rewrite Hrun.
    destruct (IH (t ++ k)) as (more & -> & Hup' & Hst' & Hl1' & Hl0').
    exists (k ++ more). rewrite <- app_assoc. split; [done|].
    rewrite start_updates_app, statements_app, listings_app, length_app, Hup, Hup'.
    split_and!; [done | | |].
    + destruct Hst as [(e & _ & ->)|(wid & _ & ->)]; simpl; lia.
    + intros Hno. by rewrite Hl1, Hl1'.
    + intros Hyes. by rewrite Hl0, Hl0'.
Qed.

(** The loop of [--refresh], seen through the remote calls. *)
Lemma collect_each_calls w client views pipeline_ids t :
  sdk w = Ready client →
  ∃ results more,
    discover_all w views t = (Returned results, t ++ more) ∧
    collect_each w views pipeline_ids t =
      (Returned (pipeline_ids ++ resolved results), t ++ more) ∧
    start_updates more = [] ∧
    length (statements more) ≤ length views ∧
    (no_env_override w → listings more = length views) ∧
    (¬ no_env_override w → listings more = 0).
Proof.
  intros Hsdk. revert pipeline_ids t.
  induction views as [|view rest IH]; intros ids t; simpl.
  - exists [], []. unfold ret. by rewrite !app_nil_r.
  - destruct (discover_pipeline_calls w client view t Hsdk)
      as (found & k & Hrun & Hup & Hst & Hl1 & Hl0).
    assert (found ≠ Some "") as Hne.
    { destruct (discover_pipeline_returns w client view t Hsdk)
        as (found' & k' & Hrun' & Hne). rewrite Hrun in Hrun'.
      by injection Hrun' as <- _. }
    unfold bind at 1 3. rewrite Hrun.
    destruct (IH (match if_truthy found with
                  | Some pid' => ids ++ [pid']
                  | None => ids
                  end) (t ++ k))
      as (results & more & Hall & -> & Hup' & Hst' & Hl1' & Hl0').
    exists (found :: results), (k ++ more).
    unfold bind at 1. rewrite Hall. unfold ret. rewrite <- !app_assoc.
    rewrite start_updates_app, statements_app, listings_app, length_app, Hup, Hup'.
    split_and!; [done | | done | | |].
    + f_equal. f_equal. unfold resolved.
      destruct found as [[|c pid]|]; simpl; [done | | done].
      by rewrite <- app_assoc.
    + destruct Hst as [(e & _ & ->)|(wid & _ & ->)]; simpl; lia.
    + intros Hno. by rewrite Hl1, Hl1'.
    + intros Hyes. by rewrite Hl0, Hl0'.
Qed.

Lemma report_line_is_print (r : Exception + unit) :
  ∃ line, report_line r = Print line.
Proof. destruct r as [e|[]]; simpl; eauto. Qed.

(** The refresh loop makes no other remote call than its updates. *)
Lemma refresh_chunks_calls client t pipeline_ids :
  statements (concat (refresh_chunks client t pipeline_ids)) = [] ∧
  listings (concat (refresh_chunks client t pipeline_ids)) = 0.
Proof.
  revert t. induction pipeline_ids as [|pid rest IH]; intros t; [done|].
  simpl.
  destruct (report_line_is_print
              (start_update client (t ++ [start_line pid]) pid)) as [line Hline].
  rewrite Hline.
  destruct (IH (t ++ [start_line pid; StartUpdate pid; Print line])) as [Hs Hl].
  split; [exact Hs | exact Hl].
Qed.

(** Discovery for a list of views, then for another, is discovery for both
    in a row. *)
Lemma discover_all_app w (xs ys : list string) t r1 t1 r2 t2 :
  discover_all w xs t = (Returned r1, t1) →
  discover_all w ys t1 = (Returned r2, t2) →
  discover_all w (xs ++ ys) t = (Returned (r1 ++ r2), t2).
Proof.
  revert t r1. induction xs as [|x xs IH]; intros t r1; simpl.
  - by intros [= <- <-].
  - unfold bind at 1 3.
    destruct (discover_pipeline w x t) as [[v|e|c] ta]; [|done..].
    unfold bind at 1 2.
    destruct (discover_all w xs ta) as [[rs|e|c] tb] eqn:Hxs; [|done..].
    unfold ret. intros [= <- <-] Hys. by rewrite (IH _ _ Hxs Hys).
Qed.

(** The loop of [--discover] makes the same calls as [discover_all]. *)
Lemma discover_each_of_all w (views : list string) t results t' :
  discover_all w views t = (Returned results, t') →
  discover_each w views t = (Returned tt, t').
Proof.
  revert t results. induction views as [|view rest IH]; intros t results; simpl.
  - by intros [= _ <-].
  - unfold bind at 1 3.
    destruct (discover_pipeline w view t) as [[v|e|c] ta]; [|done..].
    unfold bind at 1.
    destruct (discover_all w rest ta) as [[rs|e|c] tb] eqn:Hrest; [|done..].
    unfold ret. intros [= _ <-]. by apply (IH _ rs).
Qed.

(** The loop of [--refresh] collects the resolved results of
    [discover_all]. *)
Lemma collect_each_of_all w client (views : list string) pipeline_ids t results t' :
  sdk w = Ready client →
  discover_all w views t = (Returned results, t') →
  collect_each w views pipeline_ids t =
    (Returned (pipeline_ids ++ resolved results), t').
Proof.
  intros Hsdk Hall.
  destruct (collect_each_run w client views pipeline_ids t Hsdk)
    as (results' & more & Hall' & -> & _).
  rewrite Hall in Hall'. by injection Hall' as <- <-.
Qed.

Lemma resolved_app (r1 r2 : list (option string)) :
  resolved (r1 ++ r2) = resolved r1 ++ resolved r2.
Proof. apply omap_app. Qed.

Lemma main_discover_views w script (views : list string) t :
  views ≠ [] →
  main w (script :: "--discover" :: views) t = discover_each w views t.
Proof. destruct views; [done | intros _; apply main_discover]. Qed.

(** Under [--refresh], after the discoveries, the start-update calls are the
    resolved results. *)
Lemma main_refresh_calls w client script (views : list string) t results t' :
  sdk w = Ready client →
  views ≠ [] →
  discover_all w views t = (Returned results, t') →
  ∃ tail,
    snd (main w (script :: "--refresh" :: views) t) = t' ++ tail ∧
    start_updates tail = resolved results.
Proof.
  intros Hsdk Hviews Hall. destruct views as [|view rest]; [done|].
  rewrite main_refresh. unfold bind at 1.
  rewrite (collect_each_of_all _ _ _ [] _ _ _ Hsdk Hall). simpl.
  destruct (resolved results) as [|pid pids] eqn:Hr.
  - exists [Print "No pipelines found to refresh."]. by split.
  - unfold bind, print. rewrite (refresh_pipelines_run _ _ _ _ Hsdk).
    exists ([Print ""] ++ concat (refresh_chunks client (t' ++ [Print ""]) (pid :: pids))).
    split; [cbn [snd]; by rewrite <- app_assoc|].
    by rewrite start_updates_app, refresh_chunks_start_updates.
Qed.

(** After a discovery that returned [None] at trace [t'], a batch goes on:
    the remaining views are discovered from [t'] on, and under [--refresh]
    every identifier resolved for the views before or after is refreshed. *)
Lemma batch_goes_on w client view t t' :
  sdk w = Ready client →
  discover_pipeline w view t = (Returned None, t') →
  ∀ rest, ∃ results more,
    discover_all w rest t' = (Returned results, t' ++ more) ∧
    (∀ v, v ∈ rest → lookup_line v ∈ more) ∧
    start_updates more = [] ∧
    discover_each w (view :: rest) t = (Returned tt, t' ++ more) ∧
    (∀ pipeline_ids,
       collect_each w (view :: rest) pipeline_ids t =
         (Returned (pipeline_ids ++ resolved results), t' ++ more)) ∧
    (∀ script before t0 results0,
       discover_all w before t0 = (Returned results0, t) →
       main w (script :: "--discover" :: before ++ view :: rest) t0 =
         (Returned tt, t' ++ more) ∧
       ∃ tail,
         snd (main w (script :: "--refresh" :: before ++ view :: rest) t0) =
           t' ++ more ++ tail ∧
         start_updates tail = resolved results0 ++ resolved results).
Proof.
  intros Hsdk Hrun rest.
  destruct (collect_each_run w client rest [] t' Hsdk)
    as (results & more & Hall & _ & Hlook).
  destruct (collect_each_calls w client rest [] t' Hsdk)
    as (results' & more' & Hall' & _ & Hup & _).
  rewrite Hall in Hall'. injection Hall' as <- Hmore%app_inv_head. subst more'.
  assert (discover_all w (view :: rest) t = (Returned (None :: results), t' ++ more))
    as Hall1.
  { simpl. unfold bind at 1. rewrite Hrun. unfold bind. by rewrite Hall. }
  exists results, more. split_and!; [done..| | |].
  - by apply (discover_each_of_all _ _ _ (None :: results)).
  - intros ids. by rewrite (collect_each_of_all _ _ _ ids _ _ _ Hsdk Hall1).
  - intros script before t0 results0 Hbefore.
    pose proof (discover_all_app _ _ _ _ _ _ _ _ Hbefore Hall1) as Hboth.
    assert (before ++ view :: rest ≠ []) as Hne by (by destruct before).
    split.
    + rewrite main_discover_views by done.
      by apply (discover_each_of_all _ _ _ _ _ Hboth).
    + destruct (main_refresh_calls w client script _ _ _ _ Hsdk Hne Hboth)
        as (tail & Hmain & Htail).
      exists tail. rewrite Hmain, <- app_assoc. split; [done|].
      by rewrite Htail, resolved_app.
Qed.

(** ** Error handling in discovery *)

(** C3, as amended: when warehouse resolution fails (no environment
    override resolves and the warehouse list call raises or returns the
    empty list), the resolution error is caught inside [discover_pipeline],
    which reports its message and returns [None]; in a batch of views, under
    [--discover] as under [--refresh], the loop goes on and looks every
    remaining view up. *)
Theorem resolution_error_is_caught w client view t :
  sdk w = Ready client →
  no_env_override w →
  listing_fails client (t ++ [lookup_line view]) →
  ∃ t',
    t' = t ++ [lookup_line view; WarehousesList] ++
           error_report (ValueError resolution_error_message) view ∧
    fst (_get_warehouse_id w client (t ++ [lookup_line view])) =
      Raised (ValueError resolution_error_message) ∧
    discover_pipeline w view t = (Returned None, t') ∧
    (∀ rest, ∃ more,
       discover_each w (view :: rest) t = (Returned tt, t' ++ more) ∧
       ∀ v, v ∈ rest → lookup_line v ∈ more) ∧
    (∀ rest pipeline_ids, ∃ collected more,
       collect_each w (view :: rest) pipeline_ids t =
         (Returned collected, t' ++ more) ∧
       ∀ v, v ∈ rest → lookup_line v ∈ more).
Proof.
  intros Hsdk Hno Hfail. eexists. split; [done|].
  assert (_get_warehouse_id w client (t ++ [lookup_line view]) =
            (Raised (ValueError resolution_error_message),
             (t ++ [lookup_line view]) ++ [WarehousesList])) as Hres.
  { rewrite (get_warehouse_id_listing _ _ _ Hno).
    by destruct Hfail as [[e ->] | ->]. }
  assert (discover_pipeline w view t =
            (Returned None,
             t ++ [lookup_line view; WarehousesList] ++
               error_report (ValueError resolution_error_message) view)) as Hrun.
  { rewrite (discover_pipeline_run _ _ _ _ Hsdk), Hres.
    by rewrite <- !app_assoc. }
  split_and!; [by rewrite Hres | done | |].
  - intros rest. by apply (loops_go_on w client view rest t None).
  - intros rest. by apply (loops_go_on w client view rest t None).
Qed.

(** C4: an exception raised by the remote [execute_statement] call is caught
    by [discover_pipeline], which reports its message and returns [None]
    without raising again.  In a batch of views the failure stops nothing:
    the views after it are discovered as they would be from that point on,
    each of them looked up; under [--discover] [main] returns, and under
    [--refresh] [main] goes on to the start-update calls for every identifier
    resolved for the views before and after the failing one. *)
Theorem statement_error_is_caught w client view t warehouse_id t1 e :
  sdk w = Ready client →
  _get_warehouse_id w client (t ++ [lookup_line view]) = (Returned warehouse_id, t1) →
  execute_statement client t1 warehouse_id ("DESCRIBE EXTENDED " +:+ view) "30s"
    = inl e →
  ∃ t',
    t' = t1 ++
           [ExecuteStatement warehouse_id ("DESCRIBE EXTENDED " +:+ view) "30s"] ++
           error_report e view ∧
    discover_pipeline w view t = (Returned None, t') ∧
    ∀ rest, ∃ results more,
      discover_all w rest t' = (Returned results, t' ++ more) ∧
      (∀ v, v ∈ rest → lookup_line v ∈ more) ∧
      start_updates more = [] ∧
      discover_each w (view :: rest) t = (Returned tt, t' ++ more) ∧
      (∀ pipeline_ids,
         collect_each w (view :: rest) pipeline_ids t =
           (Returned (pipeline_ids ++ resolved results), t' ++ more)) ∧
      (∀ script before t0 results0,
         discover_all w before t0 = (Returned results0, t) →
         main w (script :: "--discover" :: before ++ view :: rest) t0 =
           (Returned tt, t' ++ more) ∧
         ∃ tail,
           snd (main w (script :: "--refresh" :: before ++ view :: rest) t0) =
             t' ++ more ++ tail ∧
           start_updates tail = resolved results0 ++ resolved results).
Proof.
  intros Hsdk Hres Hexec. eexists. split; [done|].
  assert (discover_pipeline w view t =
            (Returned None,
             t1 ++
               [ExecuteStatement warehouse_id ("DESCRIBE EXTENDED " +:+ view) "30s"] ++
               error_report e view)) as Hrun.
  { rewrite (discover_pipeline_run _ _ _ _ Hsdk), Hres. cbv zeta.
    by rewrite Hexec. }
  split; [done|]. by apply (batch_goes_on w client view t).
Qed.

(** ** Refresh *)

(** C5: under [--refresh], [main] runs discovery for each view in order and
    collects exactly the identifiers that are not [None], in that order; when
    there is at least one it refreshes the whole batch and the process exits
    with status 0; when there is none it prints
    [No pipelines found to refresh.] and exits with status 1. *)
Theorem main_refresh_mode w client script views t :
  sdk w = Ready client →
  views ≠ [] →
  ∃ results t1,
    discover_all w views t = (Returned results, t1) ∧
    (resolved results ≠ [] →
     main w (script :: "--refresh" :: views) t =
       refresh_pipelines w (resolved results) (t1 ++ [Print ""]) ∧
     exit_status (fst (main w (script :: "--refresh" :: views) t)) = 0%Z) ∧
    (resolved results = [] →
     main w (script :: "--refresh" :: views) t =
       (SystemExit 1, t1 ++ [Print "No pipelines found to refresh."]) ∧
     exit_status (fst (main w (script :: "--refresh" :: views) t)) = 1%Z).
Proof.
  intros Hsdk Hviews. destruct views as [|view rest]; [done|].
  destruct (collect_each_run w client (view :: rest) [] t Hsdk)
    as (results & more & Hall & Hcollect & _).
  exists results, (t ++ more). split; [done|].
  assert (main w (script :: "--refresh" :: view :: rest) t =
            match resolved results with
            | [] => (SystemExit 1,
                     (t ++ more) ++ [Print "No pipelines found to refresh."])
            | _ :: _ =>
                refresh_pipelines w (resolved results) ((t ++ more) ++ [Print ""])
            end) as ->.
  { rewrite main_refresh. unfold bind at 1. rewrite Hcollect. simpl.
    by destruct (resolved results). }
  destruct (resolved results) as [|pid pids]; split; try done.
  intros _. split; [done|]. by rewrite (refresh_pipelines_run _ _ _ _ Hsdk).
Qed.

(** C6: [refresh_pipelines] makes one start-update call for each identifier,
    in the order given, and reports after each call whether it succeeded or
    raised; an exception raised for one identifier is caught, the calls for
    the following identifiers are made all the same, and the process still
    exits with status 0. *)
Theorem refresh_pipelines_each w client pipeline_ids t :
  sdk w = Ready client →
  ∃ chunks,
    refresh_pipelines w pipeline_ids t = (Returned tt, t ++ concat chunks) ∧
    length chunks = length pipeline_ids ∧
    (∀ i pipeline_id,
       pipeline_ids !! i = Some pipeline_id →
       chunks !! i =
         Some [ start_line pipeline_id;
                StartUpdate pipeline_id;
                report_line
                  (start_update client
                     (t ++ concat (take i chunks) ++ [start_line pipeline_id])
                     pipeline_id) ]) ∧
    start_updates (t ++ concat chunks) = start_updates t ++ pipeline_ids ∧
    (∀ script first rest,
       pipeline_ids = first :: rest →
       first ≠ "--discover" → first ≠ "--refresh" →
       exit_status (fst (main w (script :: pipeline_ids) t)) = 0%Z).
Proof.
  intros Hsdk. exists (refresh_chunks client t pipeline_ids).
  split_and!.
  - by apply refresh_pipelines_run.
  - apply refresh_chunks_length.
  - apply refresh_chunks_lookup.
  - unfold start_updates. rewrite omap_app. f_equal.
    apply refresh_chunks_start_updates.
  - intros script first rest -> H1 H2. rewrite main_direct by done.
    by rewrite (refresh_pipelines_run _ _ _ _ Hsdk).
Qed.

(** C8: without arguments [main] prints the usage text and exits with
    status 1; with [--discover] or [--refresh] and nothing after it, [main]
    prints one error line and exits with status 1, without any discovery or
    refresh. *)
Theorem main_usage_errors w script t :
  (∃ examples,
     main w [script] t =
       (SystemExit 1, t ++ Print __doc__ :: map Print examples)) ∧
  exit_status (fst (main w [script] t)) = 1%Z ∧
  main w [script; "--discover"] t =
    (SystemExit 1, t ++ [Print "Error: --discover requires a metric view name"]) ∧
  main w [script; "--refresh"] t =
    (SystemExit 1, t ++ [Print "Error: --refresh requires metric view name(s)"]).
Proof.
  split_and!; [|done..].
  eexists [_; _; _; _; _; _; _; _; _]. unfold main, usage, bind, print, sys_exit.
  simpl. by rewrite <- !app_assoc.
Qed.

End Facts.

(** ** The script on concrete worlds *)

(** The properties the specification lists as testable, run on the model. *)

Example discovery_finds_pipeline :
  discover_pipeline
    (world_of [("DATABRICKS_WAREHOUSE_ID", "abc123")] catalog)
    "main.sales.mv_orders" [] =
  (Returned (Some "3f9a7b2c-1111-2222-3333-444455556666"),
   [ Print "Looking up pipeline for: main.sales.mv_orders";
     ExecuteStatement "abc123" "DESCRIBE EXTENDED main.sales.mv_orders" "30s";
     Print "  Found pipeline ID: 3f9a7b2c-1111-2222-3333-444455556666" ]).
Proof. reflexivity. Qed.

Example discovery_finds_nothing :
  discover_pipeline (world_of [] catalog) "main.sales.plain" [] =
  (Returned None,
   [ Print "Looking up pipeline for: main.sales.plain";
     WarehousesList;
     ExecuteStatement "w2" "DESCRIBE EXTENDED main.sales.plain" "30s";
     Print "  No pipeline found. Make sure the metric view has materialization enabled." ]).
Proof. reflexivity. Qed.

Example refresh_of_two_views :
  main (world_of [("DATABRICKS_HTTP_PATH", "/sql/1.0/warehouses/abc123")] catalog)
    ["refresh_metric_views.py"; "--refresh"; "main.sales.mv_orders"; "main.sales.broken"]
    [] =
  (Returned tt,
   [ Print "Looking up pipeline for: main.sales.mv_orders";
     ExecuteStatement "abc123" "DESCRIBE EXTENDED main.sales.mv_orders" "30s";
     Print "  Found pipeline ID: 3f9a7b2c-1111-2222-3333-444455556666";
     Print "Looking up pipeline for: main.sales.broken";
     ExecuteStatement "abc123" "DESCRIBE EXTENDED main.sales.broken" "30s";
     Print "  Error: connection refused";
     Print "";
     Print "  Alternatively, run this SQL in Databricks:";
     Print "    DESCRIBE EXTENDED main.sales.broken;";
     Print "  Look for 'Refresh information' section -> Pipeline URL contains the pipeline_id";
     Print "";
     Print "Starting refresh for pipeline: 3f9a7b2c-1111-2222-3333-444455556666";
     StartUpdate "3f9a7b2c-1111-2222-3333-444455556666";
     Print "  ✓ Refresh started successfully" ]).
Proof. reflexivity. Qed.

Example refresh_after_failed_discovery :
  main (world_of [("DATABRICKS_WAREHOUSE_ID", "abc123")] catalog)
    ["refresh_metric_views.py"; "--refresh"; "main.sales.broken"; "main.sales.mv_orders"]
    [] =
  (Returned tt,
   [ Print "Looking up pipeline for: main.sales.broken";
     ExecuteStatement "abc123" "DESCRIBE EXTENDED main.sales.broken" "30s";
     Print "  Error: connection refused";
     Print "";
     Print "  Alternatively, run this SQL in Databricks:";
     Print "    DESCRIBE EXTENDED main.sales.broken;";
     Print "  Look for 'Refresh information' section -> Pipeline URL contains the pipeline_id";
     Print "Looking up pipeline for: main.sales.mv_orders";
     ExecuteStatement "abc123" "DESCRIBE EXTENDED main.sales.mv_orders" "30s";
     Print "  Found pipeline ID: 3f9a7b2c-1111-2222-3333-444455556666";
     Print "";
     Print "Starting refresh for pipeline: 3f9a7b2c-1111-2222-3333-444455556666";
     StartUpdate "3f9a7b2c-1111-2222-3333-444455556666";
     Print "  ✓ Refresh started successfully" ]).
Proof. reflexivity. Qed.

Example direct_refresh_goes_on_after_failure :
  main (world_of [] catalog) ["refresh_metric_views.py"; "p1"; "p2"] [] =
  (Returned tt,
   [ Print "Starting refresh for pipeline: p1";
     StartUpdate "p1";
     Print "  ✗ Error: connection refused";
     Print "Starting refresh for pipeline: p2";
     StartUpdate "p2";
     Print "  ✓ Refresh started successfully" ]).
Proof. reflexivity. Qed.

Example import_error_exits :
  main {| str := plain_str; environ := ∅; sdk := ImportFails |}
    ["refresh_metric_views.py"; "p1"] [] =
  (SystemExit 1,
   [ Print "Error: databricks-sdk not installed.";
     Print "Install with: pip install databricks-sdk" ]).
Proof. reflexivity. Qed.

(** *** Where the code departs from the claims as first stated *)

(** C2, as first stated, has [DATABRICKS_WAREHOUSE_ID] returned whenever it
    is set, without listing warehouses.  Here it is set, to the empty
    string: the warehouses are listed and the running one is returned. *)
Lemma empty_warehouse_id_is_skipped :
  environ (world_of [("DATABRICKS_WAREHOUSE_ID", "")] two_warehouses)
    !! "DATABRICKS_WAREHOUSE_ID" = Some "" ∧
  _get_warehouse_id (world_of [("DATABRICKS_WAREHOUSE_ID", "")] two_warehouses)
    two_warehouses [] = (Returned "w2", [WarehousesList]) ∧
  _get_warehouse_id (world_of [("DATABRICKS_WAREHOUSE_ID", "")] two_warehouses)
    two_warehouses [] ≠ (Returned "", []).
Proof. split_and!; [reflexivity | reflexivity | discriminate]. Qed.

(** C3, as first stated, has the resolution error leave [discover_pipeline]
    and end the batch.  Here no override is set and the service cannot be
    reached: resolution raises, [discover_pipeline] returns [None], and the
    second view is looked up after the first. *)
Lemma resolution_error_does_not_end_batch :
  fst (_get_warehouse_id (world_of [] unreachable) unreachable
         [lookup_line "main.sales.mv_orders"]) =
    Raised (ValueError resolution_error_message) ∧
  fst (discover_pipeline (world_of [] unreachable) "main.sales.mv_orders" []) =
    Returned None ∧
  main (world_of [] unreachable)
    ["refresh_metric_views.py"; "--discover"; "main.sales.mv_orders"; "main.sales.mv_returns"]
    [] =
  (Returned tt,
   [ Print "Looking up pipeline for: main.sales.mv_orders";
     WarehousesList;
     Print "  Error: Could not determine warehouse ID. Set DATABRICKS_WAREHOUSE_ID or DATABRICKS_HTTP_PATH environment variable.";
     Print "";
     Print "  Alternatively, run this SQL in Databricks:";
     Print "    DESCRIBE EXTENDED main.sales.mv_orders;";
     Print "  Look for 'Refresh information' section -> Pipeline URL contains the pipeline_id";
     Print "Looking up pipeline for: main.sales.mv_returns";
     WarehousesList;
     Print "  Error: Could not determine warehouse ID. Set DATABRICKS_WAREHOUSE_ID or DATABRICKS_HTTP_PATH environment variable.";
     Print "";
     Print "  Alternatively, run this SQL in Databricks:";
     Print "    DESCRIBE EXTENDED main.sales.mv_returns;";
     Print "  Look for 'Refresh information' section -> Pipeline URL contains the pipeline_id" ]).
Proof. split_and!; reflexivity. Qed.

(** *** The theorems at concrete inputs *)

Lemma discover_pipeline_first_yield_witness :
  fst (discover_pipeline
         (world_of [("DATABRICKS_WAREHOUSE_ID", "abc123")] catalog)
         "main.sales.mv_orders" []) =
    Returned (Some "3f9a7b2c-1111-2222-3333-444455556666") ∧
  fst (discover_pipeline
         (world_of [("DATABRICKS_WAREHOUSE_ID", "abc123")] catalog)
         "main.sales.plain" []) = Returned None.
Proof.
  split.
  - destruct (discover_pipeline_first_yield
                (world_of [("DATABRICKS_WAREHOUSE_ID", "abc123")] catalog) catalog
                "main.sales.mv_orders" [] "abc123"
                [lookup_line "main.sales.mv_orders"] (rows describe_output)
                eq_refl eq_refl eq_refl) as (found & Hrun & Hsome & _).
    rewrite Hrun. f_equal. apply Hsome. exists describe_output. split.
    + by exists {| data_array := Some describe_output |}.
    + exists [["Type"; "METRIC_VIEW"]; ["Note"; "see pipelines/ (none yet)"]],
        ["Pipeline URL";
         "https://adb.example.net/#joblist/pipelines/3f9a7b2c-1111-2222-3333-444455556666"],
        [].
      split_and!.
      * reflexivity.
      * repeat constructor; apply search_None; reflexivity.
      * apply search_Some. reflexivity.
  - destruct (discover_pipeline_first_yield
                (world_of [("DATABRICKS_WAREHOUSE_ID", "abc123")] catalog) catalog
                "main.sales.plain" [] "abc123"
                [lookup_line "main.sales.plain"] (rows [])
                eq_refl eq_refl eq_refl) as (found & Hrun & _ & Hnone).
    rewrite Hrun. f_equal. apply Hnone. left. right.
    exists {| data_array := Some [] |}. split; [reflexivity | by right].
Defined.

Lemma discover_pipeline_skips_malformed_witness :
  fst (discover_pipeline
         (world_of [("DATABRICKS_WAREHOUSE_ID", "abc123")] catalog)
         "main.sales.mv_orders" []) =
  Returned (Some "3f9a7b2c-1111-2222-3333-444455556666").
Proof.
  apply (discover_pipeline_skips_malformed
           (world_of [("DATABRICKS_WAREHOUSE_ID", "abc123")] catalog) catalog
           "main.sales.mv_orders" [] "abc123"
           [lookup_line "main.sales.mv_orders"] (rows describe_output)
           [["Type"; "METRIC_VIEW"]]
           ["Note"; "see pipelines/ (none yet)"]
           []
           ["Pipeline URL";
            "https://adb.example.net/#joblist/pipelines/3f9a7b2c-1111-2222-3333-444455556666"]
           []).
  - reflexivity.
  - reflexivity.
  - reflexivity.
  - reflexivity.
  - repeat constructor. apply search_None. reflexivity.
  - exists "['Note', 'see ", " (none yet)']". reflexivity.
  - apply no_match_never_followed, search_None. reflexivity.
  - constructor.
  - apply search_Some. reflexivity.
Defined.

Lemma get_warehouse_id_priority_witness :
  _get_warehouse_id (world_of [("DATABRICKS_WAREHOUSE_ID", "abc123")] two_warehouses)
    two_warehouses [] = (Returned "abc123", []) ∧
  _get_warehouse_id
    (world_of [("DATABRICKS_WAREHOUSE_ID", "");
               ("DATABRICKS_HTTP_PATH", "/sql/1.0/warehouses/abc123")]
       two_warehouses)
    two_warehouses [] = (Returned "abc123", []) ∧
  _get_warehouse_id (world_of [] two_warehouses) two_warehouses [] =
    (Returned "w2", [WarehousesList]) ∧
  _get_warehouse_id (world_of [] (fixed_client (inr [stopped "w1"])
                                    (λ _, inl ConnectionError) (λ _, inr tt)))
    (fixed_client (inr [stopped "w1"]) (λ _, inl ConnectionError) (λ _, inr tt))
    [] = (Returned "w1", [WarehousesList]).
Proof.
  assert (∀ client, no_env_override (world_of [] client)) as Hno.
  { intros client. split; [by left | by intros p Hp]. }
  split_and!.
  - apply (proj1 (get_warehouse_id_priority
                    (world_of [("DATABRICKS_WAREHOUSE_ID", "abc123")] two_warehouses)
                    two_warehouses [])); [reflexivity | discriminate].
  - apply (proj1 (proj2 (get_warehouse_id_priority
                    (world_of [("DATABRICKS_WAREHOUSE_ID", "");
                               ("DATABRICKS_HTTP_PATH", "/sql/1.0/warehouses/abc123")]
                       two_warehouses)
                    two_warehouses [])) "/sql/1.0/warehouses/abc123").
    + right. reflexivity.
    + reflexivity.
    + apply search_Some. reflexivity.
  - apply (proj1 (proj2 (proj2 (get_warehouse_id_priority
                    (world_of [] two_warehouses) two_warehouses [])))
             [stopped "w1"; started "w2"] (started "w2")).
    + apply Hno.
    + reflexivity.
    + exists [stopped "w1"], []. split_and!; [reflexivity | | reflexivity].
      repeat constructor. discriminate.
  - apply (proj2 (proj2 (proj2 (get_warehouse_id_priority
                    (world_of [] (fixed_client (inr [stopped "w1"])
                                    (λ _, inl ConnectionError) (λ _, inr tt)))
                    (fixed_client (inr [stopped "w1"])
                       (λ _, inl ConnectionError) (λ _, inr tt)) [])))
             (stopped "w1") []).
    + apply Hno.
    + reflexivity.
    + repeat constructor. discriminate.
Defined.

Lemma get_warehouse_id_raises_iff_witness :
  fst (_get_warehouse_id (world_of [] unreachable) unreachable []) =
    Raised (ValueError
      "Could not determine warehouse ID. Set DATABRICKS_WAREHOUSE_ID or DATABRICKS_HTTP_PATH environment variable.") ∧
  ∃ id, fst (_get_warehouse_id (world_of [] two_warehouses) two_warehouses [])
        = Returned id.
Proof.
  split.
  - apply (proj1 (get_warehouse_id_raises_iff
                    (world_of [] unreachable) unreachable [])).
    split.
    + split; [by left | by intros p Hp].
    + left. by exists ConnectionError.
  - apply (proj2 (get_warehouse_id_raises_iff
                    (world_of [] two_warehouses) two_warehouses [])).
    intros [_ [[e He] | He]]; discriminate.
Defined.

Lemma empty_warehouse_id_as_unset_witness :
  _get_warehouse_id
    (world_of [("DATABRICKS_WAREHOUSE_ID", "");
               ("DATABRICKS_HTTP_PATH", "/sql/1.0/warehouses/abc123")]
       two_warehouses)
    two_warehouses [] = (Returned "abc123", []) ∧
  _get_warehouse_id (world_of [("DATABRICKS_WAREHOUSE_ID", "")] two_warehouses)
    two_warehouses [] = (Returned "w2", [] ++ [WarehousesList]) ∧
  _get_warehouse_id (world_of [("DATABRICKS_WAREHOUSE_ID", "")] unreachable)
    unreachable [] =
    (Raised (ValueError resolution_error_message), [] ++ [WarehousesList]) ∧
  "abc123" ≠ "".
Proof.
  split_and!.
  - apply (proj1 (proj2 (proj2 (empty_warehouse_id_as_unset
             (world_of [("DATABRICKS_WAREHOUSE_ID", "");
                        ("DATABRICKS_HTTP_PATH", "/sql/1.0/warehouses/abc123")]
                two_warehouses)
             two_warehouses [])) eq_refl) "/sql/1.0/warehouses/abc123").
    + reflexivity.
    + apply search_Some. reflexivity.
  - apply (proj1 (proj2 (proj2 (proj2 (empty_warehouse_id_as_unset
             (world_of [("DATABRICKS_WAREHOUSE_ID", "")] two_warehouses)
             two_warehouses [])) eq_refl) (λ p Hp, ltac:(discriminate Hp)))
             [stopped "w1"; started "w2"] (started "w2")).
    + reflexivity.
    + exists [stopped "w1"], []. split_and!; [reflexivity | | reflexivity].
      repeat constructor. discriminate.
  - apply (proj2 (proj2 (proj2 (proj2 (proj2 (empty_warehouse_id_as_unset
             (world_of [("DATABRICKS_WAREHOUSE_ID", "")] unreachable)
             unreachable [])) eq_refl) (λ p Hp, ltac:(discriminate Hp))))).
    left. by exists ConnectionError.
  - apply (proj1 (proj2 (empty_warehouse_id_as_unset
             (world_of [("DATABRICKS_HTTP_PATH", "/sql/1.0/warehouses/abc123")]
                two_warehouses)
             two_warehouses [])) "abc123").
    reflexivity.
Defined.

Lemma resolution_error_is_caught_witness :
  ∃ t',
    t' = [] ++ [lookup_line "main.sales.mv_orders"; WarehousesList] ++
           error_report (ValueError resolution_error_message) "main.sales.mv_orders" ∧
    fst (_get_warehouse_id (world_of [] unreachable) unreachable
           ([] ++ [lookup_line "main.sales.mv_orders"])) =
      Raised (ValueError resolution_error_message) ∧
    discover_pipeline (world_of [] unreachable) "main.sales.mv_orders" [] =
      (Returned None, t') ∧
    (∀ rest, ∃ more,
       discover_each (world_of [] unreachable) ("main.sales.mv_orders" :: rest) [] =
         (Returned tt, t' ++ more) ∧
       ∀ v, v ∈ rest → lookup_line v ∈ more) ∧
    (∀ rest pipeline_ids, ∃ collected more,
       collect_each (world_of [] unreachable) ("main.sales.mv_orders" :: rest)
         pipeline_ids [] = (Returned collected, t' ++ more) ∧
       ∀ v, v ∈ rest → lookup_line v ∈ more).
Proof.
  apply (resolution_error_is_caught (world_of [] unreachable) unreachable
           "main.sales.mv_orders" []).
  - reflexivity.
  - split; [by left | by intros p Hp].
  - left. by exists ConnectionError.
Defined.

Lemma statement_error_is_caught_witness :
  ∃ t',
    t' = [lookup_line "main.sales.broken"] ++
           [ExecuteStatement "abc123" ("DESCRIBE EXTENDED " +:+ "main.sales.broken") "30s"] ++
           error_report ConnectionError "main.sales.broken" ∧
    discover_pipeline (world_of [("DATABRICKS_WAREHOUSE_ID", "abc123")] catalog)
      "main.sales.broken" [] = (Returned None, t') ∧
    ∀ rest, ∃ results more,
      discover_all (world_of [("DATABRICKS_WAREHOUSE_ID", "abc123")] catalog) rest t' =
        (Returned results, t' ++ more) ∧
      (∀ v, v ∈ rest → lookup_line v ∈ more) ∧
      start_updates more = [] ∧
      discover_each (world_of [("DATABRICKS_WAREHOUSE_ID", "abc123")] catalog)
        ("main.sales.broken" :: rest) [] = (Returned tt, t' ++ more) ∧
      (∀ pipeline_ids,
         collect_each (world_of [("DATABRICKS_WAREHOUSE_ID", "abc123")] catalog)
           ("main.sales.broken" :: rest) pipeline_ids [] =
           (Returned (pipeline_ids ++ resolved results), t' ++ more)) ∧
      (∀ script before t0 results0,
         discover_all (world_of [("DATABRICKS_WAREHOUSE_ID", "abc123")] catalog)
           before t0 = (Returned results0, []) →
         main (world_of [("DATABRICKS_WAREHOUSE_ID", "abc123")] catalog)
           (script :: "--discover" :: before ++ "main.sales.broken" :: rest) t0 =
           (Returned tt, t' ++ more) ∧
         ∃ tail,
           snd (main (world_of [("DATABRICKS_WAREHOUSE_ID", "abc123")] catalog)
                  (script :: "--refresh" :: before ++ "main.sales.broken" :: rest) t0) =
             t' ++ more ++ tail ∧
           start_updates tail = resolved results0 ++ resolved results).
Proof.
  apply (statement_error_is_caught
           (world_of [("DATABRICKS_WAREHOUSE_ID", "abc123")] catalog) catalog
           "main.sales.broken" [] "abc123" [lookup_line "main.sales.broken"]
           ConnectionError); reflexivity.
Defined.

Lemma main_refresh_mode_witness :
  ∃ results t1,
    discover_all (world_of [] catalog)
      ["main.sales.mv_orders"; "main.sales.broken"] [] = (Returned results, t1) ∧
    (resolved results ≠ [] →
     main (world_of [] catalog)
       ("refresh_metric_views.py" :: "--refresh" ::
          ["main.sales.mv_orders"; "main.sales.broken"]) [] =
       refresh_pipelines (world_of [] catalog) (resolved results) (t1 ++ [Print ""]) ∧
     exit_status
       (fst (main (world_of [] catalog)
               ("refresh_metric_views.py" :: "--refresh" ::
                  ["main.sales.mv_orders"; "main.sales.broken"]) [])) = 0%Z) ∧
    (resolved results = [] →
     main (world_of [] catalog)
       ("refresh_metric_views.py" :: "--refresh" ::
          ["main.sales.mv_orders"; "main.sales.broken"]) [] =
       (SystemExit 1, t1 ++ [Print "No pipelines found to refresh."]) ∧
     exit_status
       (fst (main (world_of [] catalog)
               ("refresh_metric_views.py" :: "--refresh" ::
                  ["main.sales.mv_orders"; "main.sales.broken"]) [])) = 1%Z).
Proof.
  apply (main_refresh_mode (world_of [] catalog) catalog
           "refresh_metric_views.py"
           ["main.sales.mv_orders"; "main.sales.broken"] []).
  - reflexivity.
  - discriminate.
Defined.

Lemma refresh_pipelines_each_witness :
  ∃ chunks,
    refresh_pipelines (world_of [] catalog) ["p1"; "p2"] [] =
      (Returned tt, [] ++ concat chunks) ∧
    length chunks = length ["p1"; "p2"] ∧
    (∀ i pipeline_id,
       ["p1"; "p2"] !! i = Some pipeline_id →
       chunks !! i =
         Some [ start_line pipeline_id;
                StartUpdate pipeline_id;
                report_line
                  (start_update catalog
                     ([] ++ concat (take i chunks) ++ [start_line pipeline_id])
                     pipeline_id) ]) ∧
    start_updates ([] ++ concat chunks) = start_updates [] ++ ["p1"; "p2"] ∧
    (∀ script first rest,
       ["p1"; "p2"] = first :: rest →
       first ≠ "--discover" → first ≠ "--refresh" →
       exit_status (fst (main (world_of [] catalog) (script :: ["p1"; "p2"]) [])) = 0%Z).
Proof.
  apply (refresh_pipelines_each (world_of [] catalog) catalog ["p1"; "p2"] []).
  reflexivity.
Defined.

(** ** Further properties of the script *)

Section Coverage.

Context {Row : Type}.
Implicit Types (w : World Row) (client : WorkspaceClient Row).
Implicit Types (t : list Event).

(** *** Without a client *)

(** X1: when the SDK cannot be imported, [discover_pipeline] and
    [refresh_pipelines] print the two instruction lines and exit with status
    1 before anything else is printed or any remote call is made; so does
    [main] for every argument list that passes the argument checks. *)
Theorem import_failure_exits w :
  sdk w = ImportFails →
  (∀ view t, discover_pipeline w view t = (SystemExit 1, t ++ import_error_lines)) ∧
  (∀ pipeline_ids t,
     refresh_pipelines w pipeline_ids t = (SystemExit 1, t ++ import_error_lines)) ∧
  (∀ script first rest t,
     (first ≠ "--discover" ∧ first ≠ "--refresh") ∨ rest ≠ [] →
     main w (script :: first :: rest) t = (SystemExit 1, t ++ import_error_lines)).
Proof.
  intros Hsdk.
  assert (∀ view t, discover_pipeline w view t =
                      (SystemExit 1, t ++ import_error_lines)) as Hd.
  { intros. unfold discover_pipeline, get_client, bind, print, sys_exit.
    rewrite Hsdk. by rewrite <- app_assoc. }
  assert (∀ ids t, refresh_pipelines w ids t =
                     (SystemExit 1, t ++ import_error_lines)) as Hr.
  { intros. unfold refresh_pipelines, get_client, bind, print, sys_exit.
    rewrite Hsdk. by rewrite <- app_assoc. }
  split_and!; [done..|]. intros script first rest t Hargs.
  destruct (String.eqb_spec first "--discover") as [->|H1].
  { destruct Hargs as [[? _]|?]; [done|]. destruct rest as [|view rest]; [done|].
    rewrite main_discover. simpl. unfold bind. by rewrite Hd. }
  destruct (String.eqb_spec first "--refresh") as [->|H2].
  { destruct Hargs as [[_ ?]|?]; [done|]. destruct rest as [|view rest]; [done|].
    rewrite main_refresh. simpl. unfold bind. by rewrite Hd. }
  by rewrite main_direct.
Qed.


(** X13: an [ImportError] raised while the client is built, and not only
    while the SDK is imported, is caught by [get_client] as well: the two
    instruction lines are printed and the process exits with status 1,
    before anything else is printed or any remote call is made. *)
Theorem constructor_import_error_exits w e :
  sdk w = InitRaises e →
  is_import_error e = true →
  (∀ view t, discover_pipeline w view t = (SystemExit 1, t ++ import_error_lines)) ∧
  (∀ pipeline_ids t,
     refresh_pipelines w pipeline_ids t = (SystemExit 1, t ++ import_error_lines)) ∧
  (∀ script first rest t,
     (first ≠ "--discover" ∧ first ≠ "--refresh") ∨ rest ≠ [] →
     main w (script :: first :: rest) t = (SystemExit 1, t ++ import_error_lines)).
Proof.
  intros Hsdk Hclass.
  assert (∀ view t, discover_pipeline w view t =
                      (SystemExit 1, t ++ import_error_lines)) as Hd.
  { intros. unfold discover_pipeline, get_client, bind, print, sys_exit.
    rewrite Hsdk, Hclass. by rewrite <- app_assoc. }
  assert (∀ ids t, refresh_pipelines w ids t =
                     (SystemExit 1, t ++ import_error_lines)) as Hr.
  { intros. unfold refresh_pipelines, get_client, bind, print, sys_exit.
    rewrite Hsdk, Hclass. by rewrite <- app_assoc. }
  split_and!; [done..|]. intros script first rest t Hargs.
  destruct (String.eqb_spec first "--discover") as [->|H1].
  { destruct Hargs as [[? _]|?]; [done|]. destruct rest as [|view rest]; [done|].
    rewrite main_discover. simpl. unfold bind. by rewrite Hd. }
  destruct (String.eqb_spec first "--refresh") as [->|H2].
  { destruct Hargs as [[_ ?]|?]; [done|]. destruct rest as [|view rest]; [done|].
    rewrite main_refresh. simpl. unfold bind. by rewrite Hd. }
  by rewrite main_direct.
Qed.

(** *** The three modes, seen through the remote calls *)

(** X3: when the first argument is neither [--discover] nor [--refresh],
    every argument, whatever it looks like, is taken as a pipeline
    identifier: the start-update calls are the arguments in their order, and
    no statement is executed and no warehouse listed. *)
Theorem direct_mode_refreshes_arguments w client script first rest t :
  sdk w = Ready client →
  first ≠ "--discover" → first ≠ "--refresh" →
  ∃ more,
    main w (script :: first :: rest) t = (Returned tt, t ++ more) ∧
    start_updates more = first :: rest ∧
    statements more = [] ∧
    listings more = 0.
Proof.
  intros Hsdk H1 H2. rewrite main_direct by done.
  rewrite (refresh_pipelines_run _ _ _ _ Hsdk). eexists. split; [done|].
  destruct (refresh_chunks_calls client t (first :: rest)) as [Hs Hl].
  split_and!; [apply refresh_chunks_start_updates | done | done].
Qed.

(** X4: under [--discover] no pipeline update is ever started, at most one
    statement is executed for each view, and the process ends with status 0
    whether or not anything was found. *)
Theorem discover_mode_never_refreshes w client script view rest t :
  sdk w = Ready client →
  ∃ more,
    main w (script :: "--discover" :: view :: rest) t = (Returned tt, t ++ more) ∧
    start_updates more = [] ∧
    length (statements more) ≤ length (view :: rest) ∧
    exit_status (fst (main w (script :: "--discover" :: view :: rest) t)) = 0%Z.
Proof.
  intros Hsdk. rewrite main_discover.
  destruct (discover_each_calls w client (view :: rest) t Hsdk)
    as (more & -> & Hup & Hst & _).
  by exists more.
Qed.

(** X5: whatever the service answers, an identifier returned by
    [discover_pipeline] is not empty and is made of lower-case hexadecimal
    digits and hyphens only, and the last line printed announces it. *)
Theorem discovered_identifier_well_formed w view t pipeline_id t' :
  discover_pipeline w view t = (Returned (Some pipeline_id), t') →
  pipeline_id ≠ "" ∧
  Re.all Re.hex_hyphen pipeline_id = true ∧
  last t' = Some (Print ("  Found pipeline ID: " +:+ pipeline_id)).
Proof.
  destruct (sdk w) as [|e|client] eqn:Hsdk.
  - unfold discover_pipeline, get_client, bind, print, sys_exit.
    by rewrite Hsdk.
  - unfold discover_pipeline, get_client, bind, raise, print, sys_exit.
    rewrite Hsdk. by destruct (is_import_error e).
  - rewrite (discover_pipeline_run _ _ _ _ Hsdk).
    destruct (_get_warehouse_id w client _) as [[wid|e|c] t1]; [|done..].
    cbv zeta. destruct (execute_statement client _ _ _ _) as [e|response]; [done|].
    destruct (scan_result w (rows_of response)) as [pid|] eqn:Hscan; [|done].
    intros [= -> <-].
    pose proof (scan_result_nonempty _ _ _ Hscan) as Hne.
    apply scan_result_Some in Hscan as (_ & row & _ & _ & _ & Hy).
    split_and!; [done | by eapply first_match_all |].
    by rewrite last_app_cons.
Qed.

(** *** Warehouse resolution, seen from outside *)

(** X6: [_get_warehouse_id] makes no remote call other than at most one
    warehouse list call, prints nothing and never exits the process; the only
    exception it raises is its own resolution error, so an exception of the
    list call is never passed on. *)
Theorem get_warehouse_id_footprint w client t :
  ∃ o t',
    _get_warehouse_id w client t = (o, t') ∧
    (t' = t ∨ t' = t ++ [WarehousesList]) ∧
    (∀ c, o ≠ SystemExit c) ∧
    (∀ e, o = Raised e → e = ValueError resolution_error_message).
Proof.
  destruct (env_override_dec w) as [Hno|(id & _ & Hid)].
  - rewrite (get_warehouse_id_listing _ _ _ Hno). eexists _, _.
    split; [done|]. split; [by right|].
    destruct (warehouses_list client t) as [e|[|wh0 rest]];
      split; try done; by intros ? [= <-].
  - rewrite Hid. eexists _, _. split; [done|]. split; [by left|]. done.
Qed.

(** X7: when [DATABRICKS_WAREHOUSE_ID] is unset or empty, an identifier
    returned without listing warehouses comes from [DATABRICKS_HTTP_PATH]:
    it is the run of lower-case hexadecimal digits, as long as possible,
    after the first [/warehouses/] that is followed by such a digit; it is
    not empty and holds no other character. *)
Theorem http_path_identifier_is_hex w client t id :
  unset_or_empty (environ w) "DATABRICKS_WAREHOUSE_ID" →
  _get_warehouse_id w client t = (Returned id, t) →
  ∃ http_path,
    environ w !! "DATABRICKS_HTTP_PATH" = Some http_path ∧
    Re.first_match "/warehouses/" Re.hex http_path id ∧
    id ≠ "" ∧ Re.all Re.hex id = true.
Proof.
  intros Hw%if_truthy_None Hres.
  destruct (environ w !! "DATABRICKS_HTTP_PATH") as [p|] eqn:Hp.
  - destruct (Re.search "/warehouses/" Re.hex p) as [g|] eqn:Hs.
    + unfold _get_warehouse_id in Hres. rewrite Hw, Hp in Hres. simpl in Hres.
      rewrite Hs in Hres. injection Hres as <-.
      apply search_Some in Hs. exists p.
      split_and!; [done | done | by eapply first_match_nonempty
                  | by eapply first_match_all].
    + exfalso. rewrite get_warehouse_id_listing in Hres.
      * injection Hres as _ Ht. apply (f_equal length) in Ht.
        rewrite length_app in Ht. simpl in Ht. lia.
      * split; [by apply if_truthy_None|]. intros p' Hp'.
        rewrite Hp in Hp'. injection Hp' as <-. by apply search_None.
  - exfalso. rewrite get_warehouse_id_listing in Hres.
    + injection Hres as _ Ht. apply (f_equal length) in Ht.
      rewrite length_app in Ht. simpl in Ht. lia.
    + split; [by apply if_truthy_None|]. intros p' Hp'. by rewrite Hp in Hp'.
Qed.

(** *** One discovery, seen from outside *)

(** X8: one call of [discover_pipeline] starts no update and lists the
    warehouses at most once; when resolution fails it executes no statement,
    and otherwise it executes exactly one, [DESCRIBE EXTENDED] followed by
    the view name as it was given, on the resolved warehouse, with a wait
    timeout of 30 seconds. *)
Theorem discovery_sends_one_statement w client view t :
  sdk w = Ready client →
  ∃ found more,
    discover_pipeline w view t = (Returned found, t ++ more) ∧
    start_updates more = [] ∧
    listings more ≤ 1 ∧
    ((∃ e, fst (_get_warehouse_id w client (t ++ [lookup_line view])) = Raised e ∧
           statements more = []) ∨
     ∃ warehouse_id,
       fst (_get_warehouse_id w client (t ++ [lookup_line view])) =
         Returned warehouse_id ∧
       statements more =
         [(warehouse_id, "DESCRIBE EXTENDED " +:+ view, "30s")]).
Proof.
  intros Hsdk.
  destruct (discover_pipeline_calls w client view t Hsdk)
    as (found & more & Hrun & Hup & Hst & Hl1 & Hl0).
  exists found, more. split_and!; [done..| |done].
  destruct (env_override_dec w) as [Hno|(id & _ & Hid)].
  - by rewrite Hl1.
  - rewrite Hl0; [lia|]. intros Hno. specialize (Hid client t).
    rewrite (get_warehouse_id_listing _ _ _ Hno) in Hid.
    injection Hid as _ Ht. apply (f_equal length) in Ht.
    rewrite length_app in Ht. simpl in Ht. lia.
Qed.

(** X12: what a discovery whose statement was answered prints after the
    call: the line announcing the identifier when a row of the response's
    [data_array] yields one, and otherwise, when the response carries no rows
    or none of them yields anything, the single line saying that no pipeline
    was found; the hint with the SQL to run by hand is not printed in either
    case. *)
Theorem discovery_output w client view t warehouse_id t1 response :
  sdk w = Ready client →
  _get_warehouse_id w client (t ++ [lookup_line view]) = (Returned warehouse_id, t1) →
  execute_statement client t1 warehouse_id ("DESCRIBE EXTENDED " +:+ view) "30s"
    = inr response →
  (∀ rows pipeline_id,
     carries_rows response rows →
     first_yield w rows pipeline_id →
     discover_pipeline w view t =
       (Returned (Some pipeline_id),
        t1 ++ [ ExecuteStatement warehouse_id ("DESCRIBE EXTENDED " +:+ view) "30s";
                Print ("  Found pipeline ID: " +:+ pipeline_id) ])) ∧
  (carries_no_rows response ∨
   (∃ rows, carries_rows response rows ∧ Forall (yields_nothing w) rows) →
   discover_pipeline w view t =
     (Returned None,
      t1 ++ [ ExecuteStatement warehouse_id ("DESCRIBE EXTENDED " +:+ view) "30s";
              Print "  No pipeline found. Make sure the metric view has materialization enabled." ])).
Proof.
  intros Hsdk Hres Hexec. rewrite (discover_pipeline_run _ _ _ _ Hsdk), Hres.
  cbv zeta. rewrite Hexec. split.
  - intros rows' pid Hc Hy. rewrite (rows_of_carries _ _ Hc).
    apply scan_result_Some in Hy. by rewrite Hy.
  - intros Hcase.
    assert (scan_result w (rows_of response) = None) as ->; [|done].
    apply scan_result_None. destruct Hcase as [Hno%rows_of_nil|(rows' & Hc & Hall)].
    + rewrite Hno. constructor.
    + by rewrite (rows_of_carries _ _ Hc).
Qed.

(** *** Batches *)

(** X9: under [--refresh] the start-update calls are exactly the identifiers
    the discoveries returned, in the order of the views, an identifier found
    for two views being refreshed twice; the process ends with status 0
    exactly when at least one start-update call was made. *)
Theorem refresh_mode_updates_resolved w client script view rest t :
  sdk w = Ready client →
  ∃ results t1 more,
    discover_all w (view :: rest) t = (Returned results, t1) ∧
    snd (main w (script :: "--refresh" :: view :: rest) t) = t ++ more ∧
    start_updates more = resolved results ∧
    (exit_status (fst (main w (script :: "--refresh" :: view :: rest) t)) = 0%Z ↔
     start_updates more ≠ []).
Proof.
  intros Hsdk.
  destruct (collect_each_calls w client (view :: rest) [] t Hsdk)
    as (results & k & Hall & Hcollect & Hup & _).
  assert (main w (script :: "--refresh" :: view :: rest) t =
            match resolved results with
            | [] => (SystemExit 1,
                     (t ++ k) ++ [Print "No pipelines found to refresh."])
            | _ :: _ =>
                (Returned tt,
                 ((t ++ k) ++ [Print ""]) ++
                   concat (refresh_chunks client ((t ++ k) ++ [Print ""])
                             (resolved results)))
            end) as ->.
  { rewrite main_refresh. unfold bind at 1. rewrite Hcollect. simpl.
    destruct (resolved results) as [|pid pids] eqn:Hr; [done|].
    unfold bind, print. by rewrite (refresh_pipelines_run _ _ _ _ Hsdk). }
  exists results, (t ++ k).
  destruct (resolved results) as [|pid pids] eqn:Hr.
  - exists (k ++ [Print "No pipelines found to refresh."]).
    rewrite start_updates_app, Hup. simpl.
    split_and!; [done | by rewrite <- app_assoc | done | done].
  - exists (k ++ [Print ""] ++
              concat (refresh_chunks client ((t ++ k) ++ [Print ""]) (pid :: pids))).
    rewrite !start_updates_app, Hup, refresh_chunks_start_updates.
    split_and!; [done | | done | done].
    cbn [snd]. by rewrite <- !app_assoc.
Qed.

(** X11: the warehouse identifier is not kept from one view to the next:
    without an environment override, a [--discover] batch lists the
    warehouses once for each view; with one, it never lists them. *)
Theorem warehouse_resolved_for_each_view w client script view rest t :
  sdk w = Ready client →
  ∃ more,
    main w (script :: "--discover" :: view :: rest) t = (Returned tt, t ++ more) ∧
    (no_env_override w → listings more = length (view :: rest)) ∧
    (¬ no_env_override w → listings more = 0).
Proof.
  intros Hsdk. rewrite main_discover.
  destruct (discover_each_calls w client (view :: rest) t Hsdk)
    as (more & -> & _ & _ & Hl1 & Hl0).
  by exists more.
Qed.

(** X10: with a client, [main] never ends with an exception, whatever the
    arguments and whatever the service answers: it returns, or it exits with
    status 1. *)
Theorem main_ends_in_exit_status w client argv t :
  sdk w = Ready client →
  ∃ o t', main w argv t = (o, t') ∧ (o = Returned tt ∨ o = SystemExit 1).
Proof.
  intros Hsdk. destruct argv as [|script [|first rest]].
  - eexists _, _. split; [|by right].
    unfold main, usage, bind, print, sys_exit. by simpl.
  - eexists _, _. split; [|by right].
    unfold main, usage, bind, print, sys_exit. by simpl.
  - destruct (String.eqb_spec first "--discover") as [->|H1].
    { destruct rest as [|view rest]; [eexists _, _; split; [done | by right]|].
      rewrite main_discover.
      destruct (discover_each_run w client (view :: rest) t Hsdk) as (more & -> & _).
      eexists _, _. split; [done | by left]. }
    destruct (String.eqb_spec first "--refresh") as [->|H2].
    { destruct rest as [|view rest]; [eexists _, _; split; [done | by right]|].
      rewrite main_refresh. unfold bind at 1.
      destruct (collect_each_run w client (view :: rest) [] t Hsdk)
        as (results & more & _ & -> & _).
      simpl. destruct (resolved results) as [|pid pids].
      - eexists _, _. split; [by unfold bind, print, sys_exit | by right].
      - unfold bind, print. rewrite (refresh_pipelines_run _ _ _ _ Hsdk).
        eexists _, _. split; [done | by left]. }
    rewrite main_direct by done. rewrite (refresh_pipelines_run _ _ _ _ Hsdk).
    eexists _, _. split; [done | by left].
Qed.

End Coverage.

(** *** The further properties at concrete inputs *)

Lemma import_failure_exits_witness :
  (∀ view t, discover_pipeline no_sdk view t = (SystemExit 1, t ++ import_error_lines)) ∧
  (∀ pipeline_ids t,
     refresh_pipelines no_sdk pipeline_ids t = (SystemExit 1, t ++ import_error_lines)) ∧
  (∀ script first rest t,
     (first ≠ "--discover" ∧ first ≠ "--refresh") ∨ rest ≠ [] →
     main no_sdk (script :: first :: rest) t = (SystemExit 1, t ++ import_error_lines)).
Proof. apply (import_failure_exits no_sdk). reflexivity. Defined.


Lemma constructor_import_error_exits_witness :
  (∀ view t,
     discover_pipeline broken_sdk view t = (SystemExit 1, t ++ import_error_lines)) ∧
  (∀ pipeline_ids t,
     refresh_pipelines broken_sdk pipeline_ids t =
       (SystemExit 1, t ++ import_error_lines)) ∧
  (∀ script first rest t,
     (first ≠ "--discover" ∧ first ≠ "--refresh") ∨ rest ≠ [] →
     main broken_sdk (script :: first :: rest) t =
       (SystemExit 1, t ++ import_error_lines)).
Proof.
  apply (constructor_import_error_exits broken_sdk
           {| exc_class := "ModuleNotFoundError";
              exc_str := "No module named 'requests'" |});
    reflexivity.
Defined.

Lemma direct_mode_refreshes_arguments_witness :
  ∃ more,
    main (world_of [] catalog) ("refresh_metric_views.py" :: "p1" :: ["--discover"]) [] =
      (Returned tt, [] ++ more) ∧
    start_updates more = "p1" :: ["--discover"] ∧
    statements more = [] ∧
    listings more = 0.
Proof.
  apply (direct_mode_refreshes_arguments (world_of [] catalog) catalog
           "refresh_metric_views.py" "p1" ["--discover"] []).
  - reflexivity.
  - discriminate.
  - discriminate.
Defined.

Lemma discover_mode_never_refreshes_witness :
  ∃ more,
    main (world_of [] catalog)
      ("refresh_metric_views.py" :: "--discover" :: "main.sales.mv_orders" ::
         ["main.sales.broken"]) [] = (Returned tt, [] ++ more) ∧
    start_updates more = [] ∧
    length (statements more) ≤ length ("main.sales.mv_orders" :: ["main.sales.broken"]) ∧
    exit_status
      (fst (main (world_of [] catalog)
              ("refresh_metric_views.py" :: "--discover" :: "main.sales.mv_orders" ::
                 ["main.sales.broken"]) [])) = 0%Z.
Proof.
  apply (discover_mode_never_refreshes (world_of [] catalog) catalog
           "refresh_metric_views.py" "main.sales.mv_orders" ["main.sales.broken"] []).
  reflexivity.
Defined.

Lemma discovered_identifier_well_formed_witness :
  "3f9a7b2c-1111-2222-3333-444455556666" ≠ "" ∧
  Re.all Re.hex_hyphen "3f9a7b2c-1111-2222-3333-444455556666" = true ∧
  last [ Print "Looking up pipeline for: main.sales.mv_orders";
         ExecuteStatement "abc123" "DESCRIBE EXTENDED main.sales.mv_orders" "30s";
         Print "  Found pipeline ID: 3f9a7b2c-1111-2222-3333-444455556666" ] =
    Some (Print ("  Found pipeline ID: " +:+ "3f9a7b2c-1111-2222-3333-444455556666")).
Proof.
  apply (discovered_identifier_well_formed
           (world_of [("DATABRICKS_WAREHOUSE_ID", "abc123")] catalog)
           "main.sales.mv_orders" []).
  reflexivity.
Defined.

Lemma http_path_identifier_is_hex_witness :
  ∃ http_path,
    environ (world_of [("DATABRICKS_HTTP_PATH", "/sql/1.0/warehouses/abc123")]
               two_warehouses) !! "DATABRICKS_HTTP_PATH" = Some http_path ∧
    Re.first_match "/warehouses/" Re.hex http_path "abc123" ∧
    "abc123" ≠ "" ∧ Re.all Re.hex "abc123" = true.
Proof.
  apply (http_path_identifier_is_hex
           (world_of [("DATABRICKS_HTTP_PATH", "/sql/1.0/warehouses/abc123")]
              two_warehouses) two_warehouses []).
  - left. reflexivity.
  - reflexivity.
Defined.

Lemma discovery_sends_one_statement_witness :
  ∃ found more,
    discover_pipeline (world_of [] catalog) "main.sales.mv_orders" [] =
      (Returned found, [] ++ more) ∧
    start_updates more = [] ∧
    listings more ≤ 1 ∧
    ((∃ e, fst (_get_warehouse_id (world_of [] catalog) catalog
                  ([] ++ [lookup_line "main.sales.mv_orders"])) = Raised e ∧
           statements more = []) ∨
     ∃ warehouse_id,
       fst (_get_warehouse_id (world_of [] catalog) catalog
              ([] ++ [lookup_line "main.sales.mv_orders"])) = Returned warehouse_id ∧
       statements more =
         [(warehouse_id, "DESCRIBE EXTENDED " +:+ "main.sales.mv_orders", "30s")]).
Proof.
  apply (discovery_sends_one_statement (world_of [] catalog) catalog
           "main.sales.mv_orders" []).
  reflexivity.
Defined.

Lemma discovery_output_witness :
  discover_pipeline (world_of [("DATABRICKS_WAREHOUSE_ID", "abc123")] catalog)
    "main.sales.mv_orders" [] =
    (Returned (Some "3f9a7b2c-1111-2222-3333-444455556666"),
     [lookup_line "main.sales.mv_orders"] ++
       [ ExecuteStatement "abc123" ("DESCRIBE EXTENDED " +:+ "main.sales.mv_orders") "30s";
         Print ("  Found pipeline ID: " +:+ "3f9a7b2c-1111-2222-3333-444455556666") ]) ∧
  discover_pipeline (world_of [("DATABRICKS_WAREHOUSE_ID", "abc123")] catalog)
    "main.sales.plain" [] =
    (Returned None,
     [lookup_line "main.sales.plain"] ++
       [ ExecuteStatement "abc123" ("DESCRIBE EXTENDED " +:+ "main.sales.plain") "30s";
         Print "  No pipeline found. Make sure the metric view has materialization enabled." ]).
Proof.
  split.
  - apply (proj1 (discovery_output
                    (world_of [("DATABRICKS_WAREHOUSE_ID", "abc123")] catalog) catalog
                    "main.sales.mv_orders" [] "abc123"
                    [lookup_line "main.sales.mv_orders"] (rows describe_output)
                    eq_refl eq_refl eq_refl) describe_output).
    + by exists {| data_array := Some describe_output |}.
    + exists [["Type"; "METRIC_VIEW"]; ["Note"; "see pipelines/ (none yet)"]],
        ["Pipeline URL";
         "https://adb.example.net/#joblist/pipelines/3f9a7b2c-1111-2222-3333-444455556666"],
        [].
      split_and!.
      * reflexivity.
      * repeat constructor; apply search_None; reflexivity.
      * apply search_Some. reflexivity.
  - apply (proj2 (discovery_output
                    (world_of [("DATABRICKS_WAREHOUSE_ID", "abc123")] catalog) catalog
                    "main.sales.plain" [] "abc123"
                    [lookup_line "main.sales.plain"] (rows [])
                    eq_refl eq_refl eq_refl)).
    left. right. exists {| data_array := Some [] |}.
    split; [reflexivity | by right].
Defined.

Lemma refresh_mode_updates_resolved_witness :
  ∃ results t1 more,
    discover_all (world_of [] catalog)
      ("main.sales.mv_orders" :: ["main.sales.mv_orders"]) [] = (Returned results, t1) ∧
    snd (main (world_of [] catalog)
           ("refresh_metric_views.py" :: "--refresh" :: "main.sales.mv_orders" ::
              ["main.sales.mv_orders"]) []) = [] ++ more ∧
    start_updates more = resolved results ∧
    (exit_status
       (fst (main (world_of [] catalog)
               ("refresh_metric_views.py" :: "--refresh" :: "main.sales.mv_orders" ::
                  ["main.sales.mv_orders"]) [])) = 0%Z ↔
     start_updates more ≠ []).
Proof.
  apply (refresh_mode_updates_resolved (world_of [] catalog) catalog
           "refresh_metric_views.py" "main.sales.mv_orders"
           ["main.sales.mv_orders"] []).
  reflexivity.
Defined.

Lemma main_ends_in_exit_status_witness :
  ∃ o t',
    main (world_of [] unreachable)
      ["refresh_metric_views.py"; "--refresh"; "main.sales.mv_orders"] [] = (o, t') ∧
    (o = Returned tt ∨ o = SystemExit 1).
Proof.
  apply (main_ends_in_exit_status (world_of [] unreachable) unreachable).
  reflexivity.
Defined.

Lemma warehouse_resolved_for_each_view_witness :
  ∃ more,
    main (world_of [] catalog)
      ("refresh_metric_views.py" :: "--discover" :: "main.sales.mv_orders" ::
         ["main.sales.broken"]) [] = (Returned tt, [] ++ more) ∧
    (no_env_override (world_of [] catalog) →
     listings more = length ("main.sales.mv_orders" :: ["main.sales.broken"])) ∧
    (¬ no_env_override (world_of [] catalog) → listings more = 0).
Proof.
  apply (warehouse_resolved_for_each_view (world_of [] catalog) catalog
           "refresh_metric_views.py" "main.sales.mv_orders" ["main.sales.broken"] []).
  reflexivity.
Defined.
